(** * cards-creator: a shallow embedding of [main.mjs]

    The script validates its configuration, then for every requested word
    asks a text-generation backend for a meaning and for example phrases,
    lets the user pick phrases with a checkbox prompt, translates every
    picked phrase (all requests in flight at once, gathered by
    [Promise.all]), prints a summary and optionally writes an Anki import
    file.

    Conventions of the embedding
    - a JS string is the list of the bytes of its UTF-8 encoding
      ([string]); [split(",")], template literals and [join] act on it
      byte-wise, which is exact because [","], tab and line feed are
      one-byte characters that never occur inside a multi-byte sequence;
    - a JS number that comes out of [Number.parseInt] is [NaN] or the
      mathematical integer of the digits it read ([Num z]), which stands
      for the double nearest to it: the two are the same number for
      |z| < 2^53, and beyond that only the sign (all the checks look at) is
      that of the double, so nothing below relies on the digits of a larger
      count;
    - the external world (text-generation backend, checkbox prompt, file
      system) is a record of handlers over an abstract state; every call
      the script makes is appended to a chronological trace;
    - [minimist] is given as its result: the values of [args.w], [args.n]
      and [args.flashcards].  [Args] and [script] are the script on flags
      passed at most once (each value [undefined] or a string); [Argv] and
      [module_body], further down, take the values as [minimist] delivers
      them, arrays for repeated flags included. *)

From Stdlib Require Import ZArith Ascii String List Lia Bool.
From stdpp Require Import base list strings pretty.

Local Open Scope string_scope.
Local Open Scope Z_scope.

(** ** Characters that a Rocq string literal cannot hold *)

Definition dq : string := String (ascii_of_nat 34) EmptyString.
Definition newline_char : ascii := ascii_of_nat 10.
Definition nl : string := String newline_char EmptyString.
Definition tab : string := String (ascii_of_nat 9) EmptyString.

(** ** JS primitives used by the script *)

Module JS.

(** [s.split(sep)] for a one-character separator: empty segments are kept
    and the empty string splits into one empty segment. *)
Fixpoint split (sep : ascii) (s : string) : list string :=
  match s with
  | EmptyString => [EmptyString]
  | String c rest =>
      if Ascii.eqb c sep then EmptyString :: split sep rest
      else match split sep rest with
           | [] => [String c EmptyString]
           | seg :: segs => String c seg :: segs
           end
  end.

(** [xs.join(sep)]. *)
Fixpoint join (sep : string) (xs : list string) : string :=
  match xs with
  | [] => EmptyString
  | [x] => x
  | x :: rest => x ++ sep ++ join sep rest
  end.

(** Truthiness of a value that is [undefined] or a string. *)
Definition truthy (v : option string) : bool :=
  match v with
  | Some (String _ _) => true
  | _ => false
  end.

Inductive number : Type :=
  | NaN
  | Num (z : Z).

Definition isNaN (x : number) : bool :=
  match x with NaN => true | Num _ => false end.

(** [x <= 0]: a comparison with [NaN] is false. *)
Definition le0 (x : number) : bool :=
  match x with NaN => false | Num z => z <=? 0 end.

Definition code (c : ascii) : Z := Z.of_N (N_of_ascii c).

(** WhiteSpace and LineTerminator code points, by their UTF-8 encodings. *)
Definition space1 (c : ascii) : bool :=
  let k := code c in
  ((9 <=? k) && (k <=? 13)) || (k =? 32).

Definition space2 (c1 c2 : ascii) : bool :=
  (code c1 =? 194) && (code c2 =? 160).

Definition space3 (c1 c2 c3 : ascii) : bool :=
  let a := code c1 in
  let b := code c2 in
  let c := code c3 in
  ((a =? 225) && (b =? 154) && (c =? 128))
  || ((a =? 226) && (b =? 128)
      && (((128 <=? c) && (c <=? 138)) || (c =? 168) || (c =? 169) || (c =? 175)))
  || ((a =? 226) && (b =? 129) && (c =? 159))
  || ((a =? 227) && (b =? 128) && (c =? 128))
  || ((a =? 239) && (b =? 187) && (c =? 191)).

Fixpoint trimStart (s : string) : string :=
  match s with
  | EmptyString => EmptyString
  | String c1 r1 =>
      if space1 c1 then trimStart r1
      else match r1 with
           | EmptyString => s
           | String c2 r2 =>
               if space2 c1 c2 then trimStart r2
               else match r2 with
                    | EmptyString => s
                    | String c3 r3 =>
                        if space3 c1 c2 c3 then trimStart r3 else s
                    end
           end
  end.

Definition digit (c : ascii) : option Z :=
  let k := code c in
  if (48 <=? k) && (k <=? 57) then Some (k - 48) else None.

(** The longest prefix of decimal digits, as digit values. *)
Fixpoint leading_digits (s : string) : list Z :=
  match s with
  | EmptyString => []
  | String c rest =>
      match digit c with
      | Some d => d :: leading_digits rest
      | None => []
      end
  end.

Definition digits_value (ds : list Z) : Z :=
  fold_left (fun acc d => 10 * acc + d) ds 0.

(** [Number.parseInt(s, 10)]: skip leading white space, read an optional
    sign, then the longest run of decimal digits; no digit gives [NaN];
    whatever follows the digits is ignored. *)
Definition parseInt10 (s : string) : number :=
  let t := trimStart s in
  let '(sign, body) :=
    match t with
    | String c rest =>
        if code c =? 45 then (-1, rest)
        else if code c =? 43 then (1, rest)
        else (1, t)
    | EmptyString => (1, t)
    end in
  match leading_digits body with
  | [] => NaN
  | ds => Num (sign * digits_value ds)
  end.

(** [String(x)] as a template literal inserts it: the plain decimal
    numeral, which is what JS prints for the integers a double holds
    exactly and prints in full (|z| < 2^53). *)
Definition toString (x : number) : string :=
  match x with
  | NaN => "NaN"
  | Num z => pretty z
  end.

End JS.

Example split_empty_segment :
  JS.split "," "a,,b" = ["a"; ""; "b"].
Proof. reflexivity. Qed.

Example parseInt_examples :
  JS.parseInt10 "12" = JS.Num 12 /\ JS.parseInt10 " -3" = JS.Num (-3)
  /\ JS.parseInt10 "abc" = JS.NaN /\ JS.parseInt10 "0" = JS.Num 0
  /\ JS.parseInt10 "3abc" = JS.Num 3 /\ JS.parseInt10 "-" = JS.NaN.
Proof. repeat split; reflexivity. Qed.

(** ** The outside world *)

(** What a rejected promise or a thrown exception carries. *)
Definition error : Type := string.

Inductive outcome (A : Type) : Type :=
  | Fulfilled (a : A)
  | Rejected (e : error).
Arguments Fulfilled {A} a.
Arguments Rejected {A} e.

(** The three zod schemas handed to [generateObject], and the shape of the
    validated object each one yields. *)
Inductive schema : Type :=
  | PhrasesSchema
  | TranslationSchema
  | MeaningSchema.

Definition object (sc : schema) : Type :=
  match sc with
  | PhrasesSchema => list string
  | TranslationSchema => string
  | MeaningSchema => string
  end.

(** One checkbox choice, [{ name, value }]. *)
Record choice : Type := Choice { name : string; value : string }.

(** Every interaction of the script with its environment. *)
Inductive event : Type :=
  | GenerateObject (sc : schema) (prompt : string)
  | InquirerPrompt (message : string) (choices : list choice)
  | ConsoleLog (text : string)
  | ConsoleError (text : string)
  | WriteFileSync (file content : string).

(** The collaborators: each handler answers one request and moves the
    state of the world on, so the same request may be answered differently
    the second time.  A handler always answers, by a value or by an error:
    a request of the per-word loop that is never answered is a run in
    which the loop does not complete, and what is stated below of a
    completed loop says nothing of such a run.  (A translation promise
    that never settles is modelled, by the settlement order of
    [Promise.all].) *)
Record Collaborators (S : Type) : Type := {
  generateObject : forall sc : schema, string -> S -> outcome (object sc) * S;
  inquirer_prompt : string -> list choice -> S -> outcome (list string) * S;
  fs_writeFileSync : string -> string -> S -> outcome unit * S
}.
Arguments generateObject {S} _ sc _ _.
Arguments inquirer_prompt {S} _ _ _ _.
Arguments fs_writeFileSync {S} _ _ _ _.

Record World (S : Type) : Type := MkWorld {
  backend : S;
  trace : list event
}.
Arguments MkWorld {S} _ _.
Arguments backend {S} _.
Arguments trace {S} _.

(** ** The async monad of [main]

    A computation runs in a world and completes normally, throws, or is
    left waiting on a promise that never settles ([Blocks]). *)

Inductive completion (A : Type) : Type :=
  | Normal (a : A)
  | Throws (e : error)
  | Blocks.
Arguments Normal {A} a.
Arguments Throws {A} e.
Arguments Blocks {A}.

Definition M (S A : Type) : Type := World S -> completion A * World S.

Definition ret {S A} (a : A) : M S A := fun w => (Normal a, w).

Definition bind {S A B} (m : M S A) (k : A -> M S B) : M S B :=
  fun w =>
    match m w with
    | (Normal a, w') => k a w'
    | (Throws e, w') => (Throws e, w')
    | (Blocks, w') => (Blocks, w')
    end.

Notation "'let*' x ':=' m 'in' k" := (bind m (fun x => k))
  (at level 10, x name, m at level 100, k at level 200).
Notation "'do*' m 'in' k" := (bind m (fun _ => k))
  (at level 10, m at level 100, k at level 200).

Definition emit {S} (e : event) : M S unit :=
  fun w => (Normal tt, MkWorld (backend w) (trace w ++ [e])).

(** [await p]: a fulfilled promise gives its value, a rejected one throws. *)
Definition await {S A} (o : outcome A) : M S A :=
  fun w =>
    match o with
    | Fulfilled a => (Normal a, w)
    | Rejected e => (Throws e, w)
    end.

(** ** [Promise.all]

    Every input promise owns the slot of its index.  Promises settle in
    the order of [schedule]; a fulfilment stores the value in its slot and
    resolves the aggregate once no hole is left, the first rejection
    rejects the aggregate.  A schedule that ends before that leaves the
    aggregate pending. *)

Inductive settled (A : Type) : Type :=
  | Resolved (a : A)
  | RejectedWith (e : error)
  | StillPending.
Arguments Resolved {A} a.
Arguments RejectedWith {A} e.
Arguments StillPending {A}.

Fixpoint gather {A} (tasks : list (outcome A)) (schedule : list nat)
    (values : list (option A)) : settled (list A) :=
  match schedule with
  | [] => StillPending
  | i :: rest =>
      match tasks !! i with
      | None => gather tasks rest values
      | Some (Rejected e) => RejectedWith e
      | Some (Fulfilled v) =>
          let values' := <[i := Some v]> values in
          match mapM id values' with
          | Some vs => Resolved vs
          | None => gather tasks rest values'
          end
      end
  end.

Definition Promise_all {A} (tasks : list (outcome A)) (schedule : list nat)
    : settled (list A) :=
  match tasks with
  | [] => Resolved []
  | _ => gather tasks schedule (replicate (length tasks) None)
  end.

Example Promise_all_out_of_order :
  Promise_all [Fulfilled "a"; Fulfilled "b"; Fulfilled "c"] [2; 0; 1]%nat
  = Resolved ["a"; "b"; "c"].
Proof. reflexivity. Qed.

Example Promise_all_first_rejection :
  Promise_all [Fulfilled "a"; Rejected "x"; Rejected "y"] [0; 2; 1]%nat
  = RejectedWith "y".
Proof. reflexivity. Qed.

(** ** The data the pipeline passes along *)

(** [{ phrase, meaning, word }]: a chosen phrase waiting for translation. *)
Module Selected.
Record t : Type := Build { phrase : string; meaning : string; word : string }.
End Selected.

(** [{ english, portuguese, meaning, word }]: a translated phrase. *)
Module Pair.
Record t : Type := Build {
  english : string;
  portuguese : string;
  meaning : string;
  word : string
}.
End Pair.

(** [process.env] after [dotenv] has loaded the [.env] file. *)
Module Env.
Record t : Type := Build {
  OPENAI_API_KEY : option string;
  DEEPSEEK_API_KEY : option string
}.
End Env.

(** The object returned by [minimist]. *)
Module Args.
Record t : Type := Build {
  w : option string;
  n : option string;
  flashcards : bool
}.
End Args.

(** How the module body ends: the process exits with a status of its own
    making, or [main()] is left waiting on a promise that never settles
    ([Blocked]): the [catch] handler then never runs, and what becomes of
    the process is up to the event loop, see [process_exit]. *)
Inductive status : Type :=
  | Exited (code : Z)
  | Blocked.

(** ** The script *)

Section Script.

Context {S : Type} (collab : Collaborators S).

Definition model : string := "deepseek".

(** The promise returned by [generateObject({ model, schema, prompt })],
    with [.object] already projected: the request goes out now, the
    promise settles later. *)
Definition request_object (sc : schema) (prompt : string)
    : World S -> outcome (object sc) * World S :=
  fun w =>
    let '(o, s') := generateObject collab sc prompt (backend w) in
    (o, MkWorld s' (trace w ++ [GenerateObject sc prompt])).

Definition await_object (sc : schema) (prompt : string) : M S (object sc) :=
  fun w => let '(o, w') := request_object sc prompt w in await o w'.

Definition phrases_prompt (word : string) (numPhrases : JS.number) : string :=
  "Generate " ++ JS.toString numPhrases
  ++ " natural, contextually relevant phrases that native English speakers might use in daily life, incorporating the word "
  ++ dq ++ word ++ dq ++ " in a meaningful way.".

Definition translation_prompt (phrase : string) : string :=
  "Translate the following phrase into natural, idiomatic Portuguese that a native speaker would use: "
  ++ dq ++ phrase ++ dq.

Definition meaning_prompt (word : string) : string :=
  "Provide the meaning of the word " ++ dq ++ word ++ dq ++ " in English.".

Definition generatePhrases (word : string) (numPhrases : JS.number)
    : M S (list string) :=
  let* obj := await_object PhrasesSchema (phrases_prompt word numPhrases) in
  ret obj.

Definition translatePhrase (phrase : string) : M S string :=
  let* obj := await_object TranslationSchema (translation_prompt phrase) in
  ret obj.

Definition getWordMeaning (word : string) : M S string :=
  let* obj := await_object MeaningSchema (meaning_prompt word) in
  ret obj.

(** [await inquirer.prompt([{ type: "checkbox", name: "chosenPhrases",
    message, choices }])], projected on [chosenPhrases]. *)
Definition prompt_checkbox (message : string) (choices : list choice)
    : M S (list string) :=
  fun w =>
    let '(o, s') := inquirer_prompt collab message choices (backend w) in
    await o (MkWorld s' (trace w ++ [InquirerPrompt message choices])).

Definition console_log (text : string) : M S unit := emit (ConsoleLog text).
Definition console_error (text : string) : M S unit := emit (ConsoleError text).

Definition writeFileSync (file content : string) : M S unit :=
  fun w =>
    let '(o, s') := fs_writeFileSync collab file content (backend w) in
    await o (MkWorld s' (trace w ++ [WriteFileSync file content])).

Definition choose_message (word : string) : string :=
  "Choose phrases for the word " ++ dq ++ word ++ dq ++ ":".

Definition meaning_line (word meaning : string) : string :=
  nl ++ "Meaning of " ++ dq ++ word ++ dq ++ ": " ++ meaning ++ nl.

(** [selectedPhrases.push(...chosenPhrases.map(...))]: what one word adds. *)
Definition tagged (word meaning : string) (chosenPhrases : list string)
    : list Selected.t :=
  map (fun phrase => Selected.Build phrase meaning word) chosenPhrases.

(** The [for (const word of words)] loop; the array [selectedPhrases] it
    pushes to is threaded through. *)
Fixpoint for_words (numPhrases : JS.number) (words : list string)
    (selectedPhrases : list Selected.t) : M S (list Selected.t) :=
  match words with
  | [] => ret selectedPhrases
  | word :: rest =>
      let* meaning := getWordMeaning word in
      do* console_log (meaning_line word meaning) in
      let* phrases := generatePhrases word numPhrases in
      let* chosenPhrases :=
        prompt_checkbox (choose_message word)
          (map (fun phrase => Choice phrase phrase) phrases) in
      for_words numPhrases rest
        (selectedPhrases ++ tagged word meaning chosenPhrases)
  end.

(** One call of the async arrow function of the translation stage: it runs
    up to its [await], which sends the request, and returns a promise for
    the pair. *)
Definition translation_task (p : Selected.t)
    : World S -> outcome Pair.t * World S :=
  fun w =>
    let '(o, w') :=
      request_object TranslationSchema (translation_prompt (Selected.phrase p)) w in
    (match o with
     | Fulfilled translation =>
         Fulfilled (Pair.Build (Selected.phrase p) translation
                      (Selected.meaning p) (Selected.word p))
     | Rejected e => Rejected e
     end, w').

(** [selectedPhrases.map(async ...)]: the tasks start in index order. *)
Fixpoint start_all (selectedPhrases : list Selected.t) (w : World S)
    : list (outcome Pair.t) * World S :=
  match selectedPhrases with
  | [] => ([], w)
  | p :: rest =>
      let '(o, w1) := translation_task p w in
      let '(os, w2) := start_all rest w1 in
      (o :: os, w2)
  end.

(** [await Promise.all(...)] under a settlement order. *)
Definition await_all {A} (tasks : list (outcome A)) (schedule : list nat)
    : M S (list A) :=
  fun w =>
    match Promise_all tasks schedule with
    | Resolved vs => (Normal vs, w)
    | RejectedWith e => (Throws e, w)
    | StillPending => (Blocks, w)
    end.

Definition translate_all (selectedPhrases : list Selected.t)
    (schedule : list nat) : M S (list Pair.t) :=
  fun w =>
    let '(tasks, w') := start_all selectedPhrases w in
    await_all tasks schedule w'.

Definition summary_block (pair : Pair.t) : string :=
  "Meaning: " ++ Pair.meaning pair ++ nl
  ++ "English: " ++ Pair.english pair ++ nl
  ++ "Portuguese: " ++ Pair.portuguese pair.

Definition flashcard_line (pair : Pair.t) : string :=
  dq ++ Pair.english pair ++ " <b><span style=" ++ dq
  ++ "color: rgb(0, 0, 255);" ++ dq ++ ">" ++ Pair.word pair
  ++ "</span></b>" ++ dq ++ tab ++ Pair.meaning pair.

Definition flashcard_lines (translations : list Pair.t) : list string :=
  ["#separator:tab"; "#html:true"; "#tags column:3"]
  ++ map flashcard_line translations.

Definition flashcardsContent (translations : list Pair.t) : string :=
  JS.join nl (flashcard_lines translations).

Definition generated_line : string :=
  nl ++ "Flashcards file " ++ dq ++ "flashcards.txt" ++ dq
  ++ " has been generated." ++ nl.

(** What [main] does once the translations are there. *)
Definition report (flashcards : bool) (translations : list Pair.t) : M S unit :=
  let outputContent := JS.join (nl ++ nl) (map summary_block translations) in
  do* console_log (nl ++ "Final Output:" ++ nl) in
  do* console_log outputContent in
  if flashcards then
    do* writeFileSync "flashcards.txt" (flashcardsContent translations) in
    console_log generated_line
  else ret tt.

Definition main (words : list string) (numPhrases : JS.number)
    (flashcards : bool) (schedule : list nat) : M S unit :=
  let* selectedPhrases := for_words numPhrases words [] in
  let* translations := translate_all selectedPhrases schedule in
  report flashcards translations.

(** *** Top level *)

Definition credential_missing (env : Env.t) : bool :=
  (String.eqb model "openai" && negb (JS.truthy (Env.OPENAI_API_KEY env)))
  || (String.eqb model "deepseek" && negb (JS.truthy (Env.DEEPSEEK_API_KEY env))).

Definition credential_message : string :=
  "Please set the "
  ++ (if String.eqb model "openai" then "OPENAI_API_KEY" else "DEEPSEEK_API_KEY")
  ++ " environment variable.".

Definition words (args : Args.t) : list string :=
  match Args.w args with
  | Some s => if JS.truthy (Some s) then JS.split "," s else []
  | None => []
  end.

Definition numPhrases (args : Args.t) : JS.number :=
  match Args.n args with
  | Some s => if JS.truthy (Some s) then JS.parseInt10 s else JS.Num 5
  | None => JS.Num 5
  end.

Definition flashcards (args : Args.t) : bool := Args.flashcards args || false.

Definition no_words_message : string :=
  "No words provided. Please provide a list of words using the -w flag.".

Definition bad_count_message : string :=
  "Please provide a valid number of phrases using the -n flag.".

(** [console.error(msg); process.exit(1)]. *)
Definition die (msg : string) (w : World S) : status * World S :=
  (Exited 1, MkWorld (backend w) (trace w ++ [ConsoleError msg])).

(** The whole module body: the three checks, then [main().catch(...)]. *)
Definition script (env : Env.t) (args : Args.t) (schedule : list nat)
    (w : World S) : status * World S :=
  if credential_missing env then die credential_message w
  else if (length (words args) =? 0)%nat then die no_words_message w
  else if JS.isNaN (numPhrases args) || JS.le0 (numPhrases args)
       then die bad_count_message w
  else
    match main (words args) (numPhrases args) (flashcards args) schedule w with
    | (Normal _, w') => (Exited 0, w')
    | (Throws e, w') => die ("An error occurred: " ++ e) w'
    | (Blocks, w') => (Blocked, w')
    end.

End Script.

Local Open Scope nat_scope.
Local Open Scope list_scope.

(** * Properties *)

(** ** [Promise.all] gathers by index *)

Section Gather.

Context {A : Type}.
Implicit Types (tasks : list (outcome A)) (values : list (option A)).
Implicit Types (schedule : list nat) (out : list A).

(** A filled slot holds the value its own promise was fulfilled with. *)
Definition slots_ok tasks values : Prop :=
  length values = length tasks
  /\ forall j y, values !! j = Some (Some y) -> tasks !! j = Some (Fulfilled y).

Lemma Fulfilled_fmap_inj out1 out2 :
  Fulfilled <$> out1 = Fulfilled <$> out2 -> out1 = out2.
Proof.
  apply (list_fmap_eq_inj Fulfilled). intros x y Hxy. by inversion Hxy.
Qed.

Lemma slots_ok_start tasks : slots_ok tasks (replicate (length tasks) None).
Proof.
  split; [apply length_replicate |].
  intros j y Hj. apply lookup_replicate in Hj as [Hj _]. discriminate.
Qed.

Lemma slots_ok_fill tasks values i v :
  slots_ok tasks values ->
  tasks !! i = Some (Fulfilled v) ->
  slots_ok tasks (<[i := Some v]> values).
Proof.
  intros [Hlen Hok] Hi. split; [by rewrite length_insert |].
  intros j y Hj. apply list_lookup_insert_Some in Hj as [(-> & Heq & _) | [_ Hj]].
  - by inversion Heq; subst.
  - by apply Hok.
Qed.

Lemma slots_ok_full tasks values out :
  slots_ok tasks values -> mapM id values = Some out ->
  tasks = Fulfilled <$> out.
Proof.
  intros [Hlen Hok] Hfull. apply mapM_Some in Hfull.
  apply list_eq. intros j. rewrite list_lookup_fmap.
  destruct (out !! j) as [y|] eqn:Hy; simpl.
  - destruct (Forall2_lookup_r _ _ _ _ _ Hfull Hy) as (x & Hx & Hxy).
    simpl in Hxy. subst x. by apply Hok.
  - apply lookup_ge_None. apply lookup_ge_None in Hy.
    apply Forall2_length in Hfull. lia.
Qed.

Lemma gather_resolved tasks schedule values out :
  slots_ok tasks values ->
  gather tasks schedule values = Resolved out ->
  tasks = Fulfilled <$> out.
Proof.
  revert values. induction schedule as [|i rest IH]; intros values Hok; simpl.
  - discriminate.
  - destruct (tasks !! i) as [[v|e]|] eqn:Hi; [| discriminate | by apply IH].
    destruct (mapM id (<[i:=Some v]> values)) as [vs|] eqn:Hfull.
    + intros [= <-]. eapply slots_ok_full; [| exact Hfull].
      by apply slots_ok_fill.
    + apply IH. by apply slots_ok_fill.
Qed.

Lemma gather_rejected tasks schedule values e :
  gather tasks schedule values = RejectedWith e ->
  exists i, i ∈ schedule /\ tasks !! i = Some (Rejected e).
Proof.
  revert values. induction schedule as [|i rest IH]; intros values; simpl.
  - discriminate.
  - destruct (tasks !! i) as [[v|e']|] eqn:Hi.
    + destruct (mapM id (<[i:=Some v]> values)); [discriminate |].
      intros H. destruct (IH _ H) as (j & Hj & Hr).
      exists j. split; [by apply list_elem_of_further | done].
    + intros [= ->]. exists i. split; [apply list_elem_of_here | done].
    + intros H. destruct (IH _ H) as (j & Hj & Hr).
      exists j. split; [by apply list_elem_of_further | done].
Qed.

(** Once every hole belongs to a promise that is still to settle, and all
    promises fulfil, the aggregate resolves with the values in index
    order. *)
Lemma gather_complete out schedule values :
  slots_ok (Fulfilled <$> out) values ->
  mapM id values = None ->
  (forall j, values !! j = Some None -> j ∈ schedule) ->
  gather (Fulfilled <$> out) schedule values = Resolved out.
Proof.
  revert values. induction schedule as [|i rest IH]; intros values Hok Hhole Hsch.
  - apply mapM_None in Hhole. apply Exists_exists in Hhole as (x & Hx & Hnone).
    simpl in Hnone. subst x. apply list_elem_of_lookup in Hx as [j Hj].
    specialize (Hsch j Hj). by apply elem_of_nil in Hsch.
  - simpl. destruct ((Fulfilled <$> out) !! i) as [[v|e]|] eqn:Hi.
    + destruct (mapM id (<[i:=Some v]> values)) as [vs|] eqn:Hfull.
      * f_equal. apply Fulfilled_fmap_inj. symmetry.
        eapply slots_ok_full; [| exact Hfull]. by apply slots_ok_fill.
      * apply IH; [by apply slots_ok_fill | done |].
        intros j Hj. apply list_lookup_insert_Some in Hj as [(_ & ? & _) | [Hne Hj]];
          [discriminate |].
        specialize (Hsch j Hj). apply elem_of_cons in Hsch as [-> | ?]; done.
    + rewrite list_lookup_fmap in Hi. destruct (out !! i); discriminate.
    + apply IH; [done | done |]. intros j Hj. specialize (Hsch j Hj).
      apply elem_of_cons in Hsch as [-> | ?]; [| done].
      apply lookup_ge_None in Hi. apply lookup_lt_Some in Hj.
      destruct Hok as [Hlen _]. lia.
Qed.

(** A rejected promise that settles keeps the aggregate from resolving and
    from staying pending. *)
Lemma gather_fails tasks schedule values i e :
  slots_ok tasks values ->
  tasks !! i = Some (Rejected e) -> i ∈ schedule ->
  exists e', gather tasks schedule values = RejectedWith e'.
Proof.
  intros Hok Hi. revert values Hok.
  induction schedule as [|j rest IH]; intros values Hok Hin.
  - by apply elem_of_nil in Hin.
  - simpl. destruct (tasks !! j) as [[v|e']|] eqn:Hj.
    + assert (i ∈ rest) as Hrest.
      { apply elem_of_cons in Hin as [-> | ?]; [congruence | done]. }
      destruct (mapM id (<[j:=Some v]> values)) as [vs|] eqn:Hfull.
      * exfalso. pose proof (slots_ok_full _ _ _ (slots_ok_fill _ _ _ _ Hok Hj) Hfull) as ->.
        rewrite list_lookup_fmap in Hi. destruct (vs !! i); discriminate.
      * apply IH; [by apply slots_ok_fill | done].
    + by exists e'.
    + apply IH; [done |]. apply elem_of_cons in Hin as [-> | ?]; [congruence | done].
Qed.

Lemma Promise_all_resolved tasks schedule out :
  Promise_all tasks schedule = Resolved out -> tasks = Fulfilled <$> out.
Proof.
  unfold Promise_all. destruct tasks as [|t tasks].
  - by intros [= <-].
  - apply gather_resolved, slots_ok_start.
Qed.

Lemma Promise_all_rejected tasks schedule e :
  Promise_all tasks schedule = RejectedWith e ->
  exists i, i ∈ schedule /\ tasks !! i = Some (Rejected e).
Proof.
  unfold Promise_all. destruct tasks as [|t tasks]; [discriminate |].
  apply gather_rejected.
Qed.

(** Every promise settles at some point of the schedule. *)
Definition settles_all schedule (k : nat) : Prop :=
  forall i, i < k -> i ∈ schedule.

Lemma Promise_all_complete out schedule :
  settles_all schedule (length out) ->
  Promise_all (Fulfilled <$> out) schedule = Resolved out.
Proof.
  intros Hsch. unfold Promise_all.
  destruct out as [|y out]; [done |].
  change (Fulfilled <$> y :: out) with (Fulfilled y :: (Fulfilled <$> out)) at 1.
  cbv beta iota.
  apply gather_complete.
  - apply slots_ok_start.
  - apply mapM_None. simpl. by apply Exists_cons_hd.
  - intros j Hj. apply lookup_replicate in Hj as [_ Hj].
    apply Hsch. by rewrite length_fmap in Hj.
Qed.

Lemma Promise_all_fails tasks schedule i e :
  tasks !! i = Some (Rejected e) -> i ∈ schedule ->
  exists e', Promise_all tasks schedule = RejectedWith e'.
Proof.
  intros Hi Hin. unfold Promise_all. destruct tasks as [|t tasks]; [done |].
  eapply gather_fails; [apply slots_ok_start | exact Hi | exact Hin].
Qed.

End Gather.

(** ** What the trace shows *)

(** Prompts of the [generateObject] requests made with schema [sc]. *)
Definition schema_eqb (a b : schema) : bool :=
  match a, b with
  | PhrasesSchema, PhrasesSchema
  | TranslationSchema, TranslationSchema
  | MeaningSchema, MeaningSchema => true
  | _, _ => false
  end.

Definition generate_calls (sc : schema) (t : list event) : list string :=
  omap (fun e => match e with
                 | GenerateObject sc' prompt =>
                     if schema_eqb sc sc' then Some prompt else None
                 | _ => None
                 end) t.

(** The requests to a collaborator (backend or prompt), in order. *)
Definition is_request (e : event) : bool :=
  match e with
  | GenerateObject _ _ | InquirerPrompt _ _ => true
  | _ => false
  end.

Definition requests (t : list event) : list event := List.filter is_request t.

(** Standard output, one entry per [console.log]. *)
Definition stdout (t : list event) : list string :=
  omap (fun e => match e with ConsoleLog text => Some text | _ => None end) t.

Definition stderr (t : list event) : list string :=
  omap (fun e => match e with ConsoleError text => Some text | _ => None end) t.

(** The [writeFileSync] calls, as (file, content). *)
Definition written (t : list event) : list (string * string) :=
  omap (fun e => match e with
                 | WriteFileSync file content => Some (file, content)
                 | _ => None
                 end) t.

Lemma generate_calls_app sc t1 t2 :
  generate_calls sc (t1 ++ t2) = generate_calls sc t1 ++ generate_calls sc t2.
Proof. apply omap_app. Qed.

Lemma requests_app t1 t2 : requests (t1 ++ t2) = requests t1 ++ requests t2.
Proof. apply List.filter_app. Qed.

Lemma stdout_app t1 t2 : stdout (t1 ++ t2) = stdout t1 ++ stdout t2.
Proof. apply omap_app. Qed.

Lemma written_app t1 t2 : written (t1 ++ t2) = written t1 ++ written t2.
Proof. apply omap_app. Qed.

(** ** Sample worlds *)

Module Sample.

(** A world without memory: fixed answers per schema, the user ticks
    what [pick] says, the disk accepts every write. *)
Definition world (meaning : outcome string) (phrases : outcome (list string))
    (translation : outcome string) (pick : list choice -> list string)
    : Collaborators unit := {|
  generateObject sc _ s :=
    (match sc return outcome (object sc) with
     | PhrasesSchema => phrases
     | TranslationSchema => translation
     | MeaningSchema => meaning
     end, s);
  inquirer_prompt _ choices s := (Fulfilled (pick choices), s);
  fs_writeFileSync _ _ s := (Fulfilled tt, s)
|}.

Definition first_choice (choices : list choice) : list string :=
  map value (take 1 choices).

Definition no_choice (choices : list choice) : list string := [].

Definition start : World unit := MkWorld tt [].

Definition env : Env.t := Env.Build None (Some "sk-test").

Definition args (w : string) (flashcards : bool) : Args.t :=
  Args.Build (Some w) (Some "2") flashcards.

Definition happy : Collaborators unit :=
  world (Fulfilled "to move fast") (Fulfilled ["I run."; "They run."])
    (Fulfilled "Eu corro.") first_choice.

End Sample.

Example prompts_of_run :
  phrases_prompt "run" (JS.Num 12)
  = "Generate 12 natural, contextually relevant phrases that native English speakers might use in daily life, incorporating the word "
    +:+ dq +:+ "run" +:+ dq +:+ " in a meaningful way."
  /\ JS.toString (JS.Num (-3)) = "-3"
  /\ choose_message "run" = "Choose phrases for the word " +:+ dq +:+ "run" +:+ dq +:+ ":".
Proof. repeat split; reflexivity. Qed.

Example scenario_A :
  let '(st, w) := script Sample.happy Sample.env (Sample.args "run,jump" true)
                    [1; 0] Sample.start in
  st = Exited 0%Z
  /\ generate_calls MeaningSchema (trace w)
     = [meaning_prompt "run"; meaning_prompt "jump"]
  /\ exists content,
       written (trace w) = [("flashcards.txt", content)]
       /\ length (JS.split newline_char content) = 5.
Proof. vm_compute. repeat split. eexists. split; reflexivity. Qed.

(** ** The sequential phase, word by word *)

(** What happened for one word of a run in which nothing failed. *)
Module WordRun.
Record t : Type := Build {
  word : string;
  meaning : string;
  phrases : list string;
  chosenPhrases : list string
}.
End WordRun.

Section Sequential.

Context {S : Type} (collab : Collaborators S).
Implicit Types (w : World S) (numPhrases : JS.number).

Definition logged (e : event) w : World S :=
  MkWorld (backend w) (trace w ++ [e]).

Definition choices_of (phrases : list string) : list choice :=
  map (fun phrase => Choice phrase phrase) phrases.

(** The events one word leaves in the trace, in order. *)
Definition word_events numPhrases (r : WordRun.t) : list event :=
  [ GenerateObject MeaningSchema (meaning_prompt (WordRun.word r));
    ConsoleLog (meaning_line (WordRun.word r) (WordRun.meaning r));
    GenerateObject PhrasesSchema (phrases_prompt (WordRun.word r) numPhrases);
    InquirerPrompt (choose_message (WordRun.word r))
      (choices_of (WordRun.phrases r)) ].

Definition word_selected (r : WordRun.t) : list Selected.t :=
  tagged (WordRun.word r) (WordRun.meaning r) (WordRun.chosenPhrases r).

(** Big-step reading of the loop: every call of every word is answered. *)
Inductive sequential_phase numPhrases
    : list string -> World S -> list WordRun.t -> World S -> Prop :=
  | seq_done w : sequential_phase numPhrases [] w [] w
  | seq_word word rest w meaning w1 phrases w2 chosen w3 rs w' :
      getWordMeaning collab word w = (Normal meaning, w1) ->
      generatePhrases collab word numPhrases
        (logged (ConsoleLog (meaning_line word meaning)) w1)
        = (Normal phrases, w2) ->
      prompt_checkbox collab (choose_message word) (choices_of phrases) w2
        = (Normal chosen, w3) ->
      sequential_phase numPhrases rest w3 rs w' ->
      sequential_phase numPhrases (word :: rest) w
        (WordRun.Build word meaning phrases chosen :: rs) w'.

(** One iteration, step by step. *)
Lemma for_words_cons numPhrases word rest acc w :
  for_words collab numPhrases (word :: rest) acc w =
  match getWordMeaning collab word w with
  | (Normal meaning, w1) =>
      match generatePhrases collab word numPhrases
              (logged (ConsoleLog (meaning_line word meaning)) w1) with
      | (Normal phrases, w2) =>
          match prompt_checkbox collab (choose_message word)
                  (choices_of phrases) w2 with
          | (Normal chosen, w3) =>
              for_words collab numPhrases rest
                (acc ++ tagged word meaning chosen) w3
          | (Throws e, w3) => (Throws e, w3)
          | (Blocks, w3) => (Blocks, w3)
          end
      | (Throws e, w2) => (Throws e, w2)
      | (Blocks, w2) => (Blocks, w2)
      end
  | (Throws e, w1) => (Throws e, w1)
  | (Blocks, w1) => (Blocks, w1)
  end.
Proof.
  cbn [for_words]. unfold bind, console_log, emit, logged.
  destruct (getWordMeaning collab word w) as [[meaning|e|] w1]; [| reflexivity ..].
  destruct (generatePhrases collab word numPhrases _) as [[phrases|e|] w2];
    reflexivity.
Qed.

Lemma for_words_complete numPhrases words acc w final w' :
  for_words collab numPhrases words acc w = (Normal final, w') ->
  exists rs,
    sequential_phase numPhrases words w rs w'
    /\ final = acc ++ concat (map word_selected rs).
Proof.
  revert acc w. induction words as [|word rest IH]; intros acc w.
  - simpl. intros [= <- <-]. exists []. split; [constructor |].
    simpl. by rewrite app_nil_r.
  - rewrite for_words_cons.
    destruct (getWordMeaning collab word w) as [[meaning|e|] w1] eqn:H1;
      try discriminate.
    destruct (generatePhrases collab word numPhrases _) as [[phrases|e|] w2] eqn:H2;
      try discriminate.
    destruct (prompt_checkbox collab _ _ w2) as [[chosen|e|] w3] eqn:H3;
      try discriminate.
    intros Hrest. destruct (IH _ _ Hrest) as (rs & Hseq & ->).
    exists (WordRun.Build word meaning phrases chosen :: rs). split.
    + econstructor; eassumption.
    + simpl. unfold word_selected at 2. simpl. by rewrite <- app_assoc.
Qed.

Lemma for_words_sound numPhrases words acc w rs w' :
  sequential_phase numPhrases words w rs w' ->
  for_words collab numPhrases words acc w
  = (Normal (acc ++ concat (map word_selected rs)), w').
Proof.
  intros Hseq. revert acc.
  induction Hseq as [w | word rest w meaning w1 phrases w2 chosen w3 rs w' H1 H2 H3 _ IH];
    intros acc.
  - simpl. by rewrite app_nil_r.
  - rewrite for_words_cons, H1, H2, H3, IH. simpl.
    unfold word_selected at 2. simpl. by rewrite <- app_assoc.
Qed.

Lemma sequential_phase_words numPhrases words w rs w' :
  sequential_phase numPhrases words w rs w' -> map WordRun.word rs = words.
Proof. induction 1; simpl; congruence. Qed.

(** *** Every step appends its own event to the trace *)

Lemma await_object_trace sc prompt w :
  trace (await_object collab sc prompt w).2
  = trace w ++ [GenerateObject sc prompt].
Proof.
  unfold await_object, request_object.
  destruct (generateObject collab sc prompt (backend w)) as [[a|e] s']; reflexivity.
Qed.

Lemma getWordMeaning_trace word w :
  trace (getWordMeaning collab word w).2
  = trace w ++ [GenerateObject MeaningSchema (meaning_prompt word)].
Proof.
  unfold getWordMeaning, bind.
  pose proof (await_object_trace MeaningSchema (meaning_prompt word) w) as H.
  destruct (await_object collab MeaningSchema _ w) as [[a|e|] w1]; exact H.
Qed.

Lemma generatePhrases_trace word numPhrases w :
  trace (generatePhrases collab word numPhrases w).2
  = trace w ++ [GenerateObject PhrasesSchema (phrases_prompt word numPhrases)].
Proof.
  unfold generatePhrases, bind.
  pose proof (await_object_trace PhrasesSchema (phrases_prompt word numPhrases) w) as H.
  destruct (await_object collab PhrasesSchema _ w) as [[a|e|] w1]; exact H.
Qed.

Lemma prompt_checkbox_trace message choices w :
  trace (prompt_checkbox collab message choices w).2
  = trace w ++ [InquirerPrompt message choices].
Proof.
  unfold prompt_checkbox.
  destruct (inquirer_prompt collab message choices (backend w)) as [[a|e] s'];
    reflexivity.
Qed.

Lemma writeFileSync_trace file content w :
  trace (writeFileSync collab file content w).2
  = trace w ++ [WriteFileSync file content].
Proof.
  unfold writeFileSync.
  destruct (fs_writeFileSync collab file content (backend w)) as [[a|e] s'];
    reflexivity.
Qed.

Lemma sequential_phase_trace numPhrases words w rs w' :
  sequential_phase numPhrases words w rs w' ->
  trace w' = trace w ++ concat (map (word_events numPhrases) rs).
Proof.
  induction 1 as [w | word rest w meaning w1 phrases w2 chosen w3 rs w' H1 H2 H3 _ IH].
  - simpl. by rewrite app_nil_r.
  - pose proof (getWordMeaning_trace word w) as T1. rewrite H1 in T1.
    pose proof (generatePhrases_trace word numPhrases
                  (logged (ConsoleLog (meaning_line word meaning)) w1)) as T2.
    rewrite H2 in T2.
    pose proof (prompt_checkbox_trace (choose_message word) (choices_of phrases) w2) as T3.
    rewrite H3 in T3. simpl in T1, T2, T3.
    rewrite IH, T3, T2, T1. simpl. by rewrite <- !app_assoc.
Qed.

(** The kinds of event the loop produces. *)
Definition loop_event (e : event) : bool :=
  match e with
  | GenerateObject MeaningSchema _ | GenerateObject PhrasesSchema _
  | InquirerPrompt _ _ | ConsoleLog _ => true
  | _ => false
  end.

Lemma loop_events_written t : forallb loop_event t = true -> written t = [].
Proof.
  induction t as [|e t IH]; [done |]. simpl. intros H.
  apply andb_prop in H as [He Ht]. destruct e; try discriminate; by apply IH.
Qed.

Lemma loop_events_translation t :
  forallb loop_event t = true -> generate_calls TranslationSchema t = [].
Proof.
  induction t as [|e t IH]; [done |]. simpl. intros H.
  apply andb_prop in H as [He Ht].
  destruct e as [[| |] ?| | | |]; try discriminate; by apply IH.
Qed.

(** Whatever happens in the loop, the trace only grows, by events of the
    loop, and the first thing a non-empty word list causes is the meaning
    request of its first word. *)
Lemma for_words_grows numPhrases words acc w :
  exists t,
    trace (for_words collab numPhrases words acc w).2 = trace w ++ t
    /\ forallb loop_event t = true
    /\ match words with
       | [] => True
       | word :: _ =>
           exists t', t = GenerateObject MeaningSchema (meaning_prompt word) :: t'
       end.
Proof.
  revert acc w. induction words as [|word rest IH]; intros acc w.
  - exists []. simpl. by rewrite app_nil_r.
  - rewrite for_words_cons.
    pose proof (getWordMeaning_trace word w) as T1.
    destruct (getWordMeaning collab word w) as [[meaning|e|] w1]; simpl in T1;
      [| exists [GenerateObject MeaningSchema (meaning_prompt word)]; eauto ..].
    pose proof (generatePhrases_trace word numPhrases
                  (logged (ConsoleLog (meaning_line word meaning)) w1)) as T2.
    destruct (generatePhrases collab word numPhrases _) as [[phrases|e|] w2];
      simpl in T2; rewrite T1, <- !app_assoc in T2;
      [| eexists; split; [exact T2 | simpl; eauto] ..].
    pose proof (prompt_checkbox_trace (choose_message word) (choices_of phrases) w2) as T3.
    destruct (prompt_checkbox collab _ _ w2) as [[chosen|e|] w3];
      simpl in T3; rewrite T2, <- !app_assoc in T3;
      [| eexists; split; [exact T3 | simpl; eauto] ..].
    destruct (IH (acc ++ tagged word meaning chosen) w3) as (t & Ht & Hw & _).
    rewrite T3, <- !app_assoc in Ht.
    eexists. split; [exact Ht |]. split; [| simpl; eauto].
    simpl. exact Hw.
Qed.

(** *** The translation stage *)

Definition pair_of (p : Selected.t) (translation : string) : Pair.t :=
  Pair.Build (Selected.phrase p) translation (Selected.meaning p) (Selected.word p).

Definition translation_request (p : Selected.t) : event :=
  GenerateObject TranslationSchema (translation_prompt (Selected.phrase p)).

(** The promise of a task belongs to its own selected phrase. *)
Definition task_of (p : Selected.t) (o : outcome Pair.t) : Prop :=
  match o with
  | Fulfilled pr => exists translation, pr = pair_of p translation
  | Rejected _ => True
  end.

Definition is_fulfilled {A} (o : outcome A) : bool :=
  match o with Fulfilled _ => true | Rejected _ => false end.

Lemma translation_task_spec p w :
  task_of p (translation_task collab p w).1
  /\ trace (translation_task collab p w).2 = trace w ++ [translation_request p].
Proof.
  unfold translation_task, request_object.
  destruct (generateObject collab TranslationSchema _ (backend w)) as [[t|e] s'];
    simpl; split; try done. by exists t.
Qed.

(** The promise of a task is the one the arrow function's body settles:
    [translatePhrase] awaited, then the object literal. *)
Lemma translation_task_body p w :
  bind (translatePhrase collab (Selected.phrase p))
    (fun translation => ret (pair_of p translation)) w
  = match translation_task collab p w with
    | (Fulfilled pr, w') => (Normal pr, w')
    | (Rejected e, w') => (Throws e, w')
    end.
Proof.
  unfold translatePhrase, translation_task, bind, await_object, request_object.
  by destruct (generateObject collab TranslationSchema _ (backend w)) as [[t|e] s'].
Qed.

Lemma start_all_spec selected w :
  Forall2 task_of selected (start_all collab selected w).1
  /\ trace (start_all collab selected w).2
     = trace w ++ map translation_request selected.
Proof.
  revert w. induction selected as [|p rest IH]; intros w; simpl.
  - split; [constructor | by rewrite app_nil_r].
  - destruct (translation_task_spec p w) as [Hp Tp].
    destruct (translation_task collab p w) as [o w1]. simpl in Hp, Tp.
    destruct (IH w1) as [Hrest Trest].
    destruct (start_all collab rest w1) as [os w2]. simpl in *.
    split; [by constructor |]. rewrite Trest, Tp. by rewrite <- app_assoc.
Qed.

Lemma translate_all_world selected schedule w :
  (translate_all collab selected schedule w).2 = (start_all collab selected w).2.
Proof.
  unfold translate_all, await_all.
  destruct (start_all collab selected w) as [tasks w1].
  destruct (Promise_all tasks schedule); reflexivity.
Qed.

Lemma translate_all_normal selected schedule w out w' :
  translate_all collab selected schedule w = (Normal out, w') ->
  (start_all collab selected w).1 = Fulfilled <$> out
  /\ w' = (start_all collab selected w).2.
Proof.
  unfold translate_all, await_all.
  destruct (start_all collab selected w) as [tasks w1].
  destruct (Promise_all tasks schedule) as [vs|e|] eqn:Hall; try discriminate.
  intros [= <- <-]. split; [| done]. simpl. by apply Promise_all_resolved in Hall.
Qed.

Lemma translate_all_total selected schedule w :
  settles_all schedule (length selected) ->
  forallb is_fulfilled (start_all collab selected w).1 = true ->
  exists out,
    translate_all collab selected schedule w
    = (Normal out, (start_all collab selected w).2).
Proof.
  intros Hsch Hall. unfold translate_all, await_all.
  destruct (start_all_spec selected w) as [Htasks _].
  destruct (start_all collab selected w) as [tasks w1]. simpl in *.
  assert (exists out, tasks = Fulfilled <$> out) as [out ->].
  { clear -Hall. induction tasks as [|[pr|e] tasks IH]; simpl in Hall.
    - by exists [].
    - destruct (IH Hall) as [out ->]. by exists (pr :: out).
    - discriminate. }
  exists out. rewrite Promise_all_complete; [done |].
  apply Forall2_length in Htasks. rewrite length_fmap in Htasks.
  by rewrite <- Htasks.
Qed.

Lemma translate_all_fails selected schedule w i e :
  (start_all collab selected w).1 !! i = Some (Rejected e) ->
  i ∈ schedule ->
  exists e',
    translate_all collab selected schedule w
    = (Throws e', (start_all collab selected w).2).
Proof.
  intros Hi Hin. unfold translate_all, await_all.
  destruct (start_all collab selected w) as [tasks w1]. simpl in *.
  destruct (Promise_all_fails tasks schedule i e Hi Hin) as [e' ->].
  by exists e'.
Qed.

(** *** Reporting and export *)

Lemma report_trace flashcards translations w :
  trace (report collab flashcards translations w).2
  = trace w
    ++ [ConsoleLog (nl +:+ "Final Output:" +:+ nl);
        ConsoleLog (JS.join (nl +:+ nl) (map summary_block translations))]
    ++ (if flashcards then
          WriteFileSync "flashcards.txt" (flashcardsContent translations)
          :: match (fs_writeFileSync collab "flashcards.txt"
                      (flashcardsContent translations) (backend w)).1 with
             | Fulfilled _ => [ConsoleLog generated_line]
             | Rejected _ => []
             end
        else []).
Proof.
  unfold report, bind, console_log, emit, writeFileSync. simpl.
  destruct flashcards; simpl.
  - destruct (fs_writeFileSync collab _ _ (backend w)) as [[u|e] s']; simpl;
      by rewrite <- !app_assoc.
  - by rewrite <- !app_assoc.
Qed.

End Sequential.

(** ** The top level *)

Section TopLevel.

Context {S : Type} (collab : Collaborators S).
Implicit Types (w : World S) (env : Env.t) (args : Args.t).

(** [main().catch(...)], the last branch of the script. *)
Definition run_main (words : list string) (numPhrases : JS.number)
    (flashcards : bool) (schedule : list nat) w : status * World S :=
  match main collab words numPhrases flashcards schedule w with
  | (Normal _, w') => (Exited 0%Z, w')
  | (Throws e, w') => die ("An error occurred: " +:+ e) w'
  | (Blocks, w') => (Blocked, w')
  end.

(** The message of the first check that fails, if any. *)
Definition config_error env args : option string :=
  if credential_missing env then Some credential_message
  else if length (words args) =? 0 then Some no_words_message
  else if JS.isNaN (numPhrases args) || JS.le0 (numPhrases args)
       then Some bad_count_message
  else None.

Definition config_messages : list string :=
  [credential_message; no_words_message; bad_count_message].

Lemma script_unfold env args schedule w :
  script collab env args schedule w =
  match config_error env args with
  | Some msg => die msg w
  | None => run_main (words args) (numPhrases args) (flashcards args) schedule w
  end.
Proof.
  unfold script, config_error, run_main.
  destruct (credential_missing env); [done |].
  destruct (length (words args) =? 0); [done |].
  destruct (JS.isNaN (numPhrases args) || JS.le0 (numPhrases args)); done.
Qed.

Lemma config_error_message env args msg :
  config_error env args = Some msg -> msg ∈ config_messages.
Proof.
  unfold config_error, config_messages.
  destruct (credential_missing env); [intros [= <-]; apply list_elem_of_In; simpl; auto |].
  destruct (length (words args) =? 0); [intros [= <-]; apply list_elem_of_In; simpl; auto |].
  destruct (JS.isNaN (numPhrases args) || JS.le0 (numPhrases args));
    [intros [= <-]; apply list_elem_of_In; simpl; auto | discriminate].
Qed.

(** The credential counts as absent when the variable is unset or empty:
    that is what [!process.env.DEEPSEEK_API_KEY] tests. *)
Definition credential_absent env : Prop :=
  Env.DEEPSEEK_API_KEY env = None \/ Env.DEEPSEEK_API_KEY env = Some "".

Definition bad_configuration env args : Prop :=
  words args = []
  \/ numPhrases args = JS.NaN
  \/ (exists z, numPhrases args = JS.Num z /\ (z <= 0)%Z)
  \/ credential_absent env.

Lemma credential_missing_absent env :
  credential_missing env = true <-> credential_absent env.
Proof.
  unfold credential_missing, credential_absent, model. simpl.
  destruct (Env.DEEPSEEK_API_KEY env) as [[|c s]|]; simpl; split;
    try done; try (intros [?|?]; done); auto.
Qed.

Lemma config_error_bad env args :
  config_error env args <> None <-> bad_configuration env args.
Proof.
  unfold config_error, bad_configuration.
  pose proof (credential_missing_absent env) as Hcred.
  destruct (credential_missing env).
  { split; [intros _; do 3 right; by apply Hcred | done]. }
  assert (~ credential_absent env) as Hpresent.
  { intros H. apply Hcred in H. discriminate. }
  destruct (words args) as [|word rest]; simpl.
  { split; [by left | done]. }
  destruct (numPhrases args) as [|z]; simpl.
  { split; [by right; left | done]. }
  destruct (Z.leb_spec z 0).
  - split; [| done]. intros _. right; right; left. by exists z.
  - split; [done |]. intros [? | [? | [(z' & [= <-] & ?) | ?]]]; try done. lia.
Qed.

Lemma script_valid env args schedule w :
  ~ bad_configuration env args ->
  script collab env args schedule w
  = run_main (words args) (numPhrases args) (flashcards args) schedule w.
Proof.
  intros Hok. rewrite script_unfold.
  destruct (config_error env args) eqn:Hcfg; [| done].
  exfalso. apply Hok, config_error_bad. by rewrite Hcfg.
Qed.

(** How the checks read some borderline values: [parseInt] stops at the
    first character that is not a digit, an empty [-n] falls back to the
    default, and an empty credential counts as missing. *)
Example borderline_configurations :
  numPhrases (Args.Build (Some "run") (Some "3abc") false) = JS.Num 3
  /\ numPhrases (Args.Build (Some "run") (Some "") false) = JS.Num 5
  /\ numPhrases (Args.Build (Some "run") (Some "0.5") false) = JS.Num 0
  /\ numPhrases (Args.Build (Some "run") (Some "five") false) = JS.NaN
  /\ words (Args.Build (Some "") None false) = []
  /\ words (Args.Build (Some ",") None false) = [""; ""]
  /\ credential_missing (Env.Build (Some "sk-other") (Some "")) = true.
Proof. repeat split; reflexivity. Qed.

Definition is_output (e : event) : bool := negb (is_request e).

(** After a sequential phase that completed, the run adds the translation
    requests in list order and then only prints or writes. *)
Lemma run_main_after_loop words numPhrases flashcards schedule w selected w1 :
  for_words collab numPhrases words [] w = (Normal selected, w1) ->
  exists t,
    trace (run_main words numPhrases flashcards schedule w).2
    = trace w1 ++ map translation_request selected ++ t
    /\ forallb is_output t = true.
Proof.
  intros Hloop. unfold run_main, main, bind. rewrite Hloop.
  pose proof (translate_all_world collab selected schedule w1) as Hw2.
  destruct (start_all_spec collab selected w1) as [_ Ht].
  destruct (translate_all collab selected schedule w1) as [[translations|e|] w2];
    simpl in Hw2; subst w2.
  - pose proof (report_trace collab flashcards translations
                  (start_all collab selected w1).2) as Hr.
    destruct (report collab flashcards translations _) as [[u|e|] w3];
      simpl in Hr |- *; rewrite ?Hr, Ht, <- ?app_assoc;
      eexists; (split; [reflexivity |]);
      destruct flashcards; simpl; try reflexivity;
      by destruct (fs_writeFileSync collab _ _ _).1.
  - simpl. rewrite Ht, <- app_assoc. by eexists.
  - simpl. rewrite Ht. exists []. by rewrite app_nil_r.
Qed.

(** A run that gets past the checks starts with the meaning request of the
    first word. *)
Lemma run_main_first_event word rest numPhrases flashcards schedule w :
  exists t,
    trace (run_main (word :: rest) numPhrases flashcards schedule w).2
    = trace w ++ GenerateObject MeaningSchema (meaning_prompt word) :: t.
Proof.
  destruct (for_words_grows collab numPhrases (word :: rest) [] w)
    as (t & Ht & _ & t' & ->).
  destruct (for_words collab numPhrases (word :: rest) [] w)
    as [[selected|e|] w1] eqn:Hloop; simpl in Ht.
  - destruct (run_main_after_loop _ _ flashcards schedule _ _ _ Hloop)
      as (t2 & -> & _).
    rewrite Ht, <- app_assoc. simpl. by eexists.
  - unfold run_main, main, bind. rewrite Hloop. simpl.
    rewrite Ht, <- app_assoc. simpl. by eexists.
  - unfold run_main, main, bind. rewrite Hloop. simpl. rewrite Ht. by eexists.
Qed.

End TopLevel.

(** * The claims *)

(** The checks on flags passed at most once, in terms of the values the
    script computes from them: [script] stops with one of its three
    configuration messages on standard error and exit status 1, having
    made no collaborator call and left the world untouched, exactly when
    [words] is empty, or [numPhrases] is [NaN] or at most 0, or the
    provider credential is unset or empty; otherwise the run is
    [main().catch(...)] on these values. *)
Theorem config_rejected_exactly {S : Type} (collab : Collaborators S)
    (env : Env.t) (args : Args.t) (schedule : list nat) (w : World S) :
  (bad_configuration env args <->
   exists msg,
     msg ∈ config_messages
     /\ script collab env args schedule w
        = (Exited 1%Z, MkWorld (backend w) (trace w ++ [ConsoleError msg])))
  /\ (bad_configuration env args ->
      requests (trace (script collab env args schedule w).2) = requests (trace w))
  /\ (~ bad_configuration env args ->
      script collab env args schedule w
      = run_main collab (words args) (numPhrases args) (flashcards args)
          schedule w).
Proof.
  rewrite script_unfold. pose proof (config_error_bad env args) as Hbad.
  destruct (config_error env args) as [msg|] eqn:Hcfg.
  - assert (bad_configuration env args) as H by (by apply Hbad).
    split; [| split].
    + split; [| done]. intros _. exists msg. split; [| done].
      by eapply config_error_message.
    + intros _. unfold die. simpl. rewrite requests_app. simpl.
      by rewrite app_nil_r.
    + done.
  - assert (~ bad_configuration env args) as H.
    { intros H. by apply Hbad in H. }
    split; [| split]; [| done | done].
    split; [done |]. intros (msg & _ & Hrun). exfalso.
    assert (words args <> []) as Hwords.
    { intros Hw. apply H. by left. }
    destruct (words args) as [|word rest]; [done |].
    destruct (run_main_first_event collab word rest (numPhrases args)
                (flashcards args) schedule w) as [t Ht].
    rewrite Hrun in Ht. simpl in Ht. apply app_inv_head in Ht. discriminate.
Qed.

(** C1.  Whatever the order in which the translation promises settle, a
    translation stage that yields a list yields one entry per selected
    phrase, the i-th entry carrying the word, the meaning and (as
    [english]) the phrase of the i-th selected phrase; two settlement
    orders that both yield a list yield the same one; and the stage does
    yield a list as soon as every request is fulfilled and every promise
    settles. *)
Theorem translation_index_preserving {S : Type} (collab : Collaborators S)
    (selected : list Selected.t) (schedule : list nat) (w : World S) :
  (forall out w',
     translate_all collab selected schedule w = (Normal out, w') ->
     length out = length selected
     /\ (forall i p, selected !! i = Some p ->
           exists pr, out !! i = Some pr
                      /\ Pair.word pr = Selected.word p
                      /\ Pair.meaning pr = Selected.meaning p
                      /\ Pair.english pr = Selected.phrase p)
     /\ (forall schedule' out' w'',
           translate_all collab selected schedule' w = (Normal out', w'') ->
           out' = out))
  /\ (settles_all schedule (length selected) ->
      forallb is_fulfilled (start_all collab selected w).1 = true ->
      exists out w',
        translate_all collab selected schedule w = (Normal out, w')).
Proof.
  split.
  - intros out w' Hrun. apply translate_all_normal in Hrun as [Htasks _].
    destruct (start_all_spec collab selected w) as [Hof _].
    rewrite Htasks in Hof. rewrite Forall2_fmap_r in Hof.
    split; [| split].
    + symmetry. by eapply Forall2_length.
    + intros i p Hp.
      destruct (Forall2_lookup_l _ _ _ _ _ Hof Hp) as (pr & Hpr & t & ->).
      exists (pair_of p t). by repeat split.
    + intros schedule' out' w'' Hrun'.
      apply translate_all_normal in Hrun' as [Htasks' _].
      rewrite Htasks in Htasks'. symmetry. by apply Fulfilled_fmap_inj.
  - intros Hsch Hall.
    destruct (translate_all_total collab selected schedule w Hsch Hall) as [out Hout].
    eauto.
Qed.

Lemma translation_index_preserving_witness :
  exists out w',
    translate_all Sample.happy
      [Selected.Build "I run." "to move fast" "run";
       Selected.Build "They jump." "to leap" "jump"] [1; 0] Sample.start
    = (Normal out, w').
Proof.
  apply (proj2 (translation_index_preserving Sample.happy
                  [Selected.Build "I run." "to move fast" "run";
                   Selected.Build "They jump." "to leap" "jump"] [1; 0]
                  Sample.start)).
  - intros i Hi. simpl in Hi. apply list_elem_of_In. simpl.
    destruct i as [|[|i]]; [auto | auto | lia].
  - reflexivity.
Defined.

(** C5.  When one translation request of the batch is rejected, the stage
    throws instead of yielding any list, the script reports the error and
    exits with status 1, nothing is printed after the per-word
    announcements and no file is written, whatever the flashcards flag. *)
Theorem translation_failure_aborts {S : Type} (collab : Collaborators S)
    (env : Env.t) (args : Args.t) (schedule : list nat) (w : World S)
    (selected : list Selected.t) (w1 : World S) (i : nat) (e : error) :
  ~ bad_configuration env args ->
  for_words collab (numPhrases args) (words args) [] w = (Normal selected, w1) ->
  (start_all collab selected w1).1 !! i = Some (Rejected e) ->
  i ∈ schedule ->
  exists e' w2,
    translate_all collab selected schedule w1 = (Throws e', w2)
    /\ script collab env args schedule w
       = (Exited 1%Z,
          MkWorld (backend w2)
            (trace w2 ++ [ConsoleError ("An error occurred: " +:+ e')]))
    /\ stdout (trace (script collab env args schedule w).2) = stdout (trace w1)
    /\ written (trace (script collab env args schedule w).2) = written (trace w).
Proof.
  intros Hok Hloop Hi Hin.
  destruct (translate_all_fails collab selected schedule w1 i e Hi Hin) as [e' Hfail].
  exists e', (start_all collab selected w1).2. split; [exact Hfail |].
  rewrite (script_valid collab env args schedule w Hok). unfold run_main, main, bind. rewrite Hloop, Hfail.
  split; [reflexivity |]. unfold die. simpl.
  destruct (start_all_spec collab selected w1) as [_ ->].
  apply for_words_complete in Hloop as (rs & Hseq & _).
  apply sequential_phase_trace in Hseq.
  assert (forall l, stdout (map translation_request l) = []) as Hout.
  { induction l; [done | done]. }
  assert (forall l, written (map translation_request l) = []) as Hwr.
  { induction l; [done | done]. }
  split.
  - rewrite !stdout_app, Hout. simpl. by rewrite !app_nil_r.
  - rewrite !written_app, Hwr, Hseq, written_app. simpl.
    assert (written (concat (map (word_events (numPhrases args)) rs)) = []) as ->.
    { clear. induction rs as [|r rs IH]; [done |]. simpl. exact IH. }
    by rewrite !app_nil_r.
Qed.

Lemma translation_failure_aborts_witness :
  exists e' w2,
    translate_all (Sample.world (Fulfilled "to move fast")
                     (Fulfilled ["I run."; "They run."]) (Rejected "503")
                     Sample.first_choice)
      [Selected.Build "I run." "to move fast" "run"] [0]
      (MkWorld tt (word_events (JS.Num 2)
                     (WordRun.Build "run" "to move fast" ["I run."; "They run."]
                        ["I run."])))
    = (Throws e', w2).
Proof.
  destruct (translation_failure_aborts
              (Sample.world (Fulfilled "to move fast")
                 (Fulfilled ["I run."; "They run."]) (Rejected "503")
                 Sample.first_choice)
              Sample.env (Sample.args "run" true) [0] Sample.start
              [Selected.Build "I run." "to move fast" "run"]
              (MkWorld tt (word_events (JS.Num 2)
                             (WordRun.Build "run" "to move fast"
                                ["I run."; "They run."] ["I run."])))
              0 "503") as (e' & w2 & H & _).
  - intros [H | [H | [(z & H & Hz) | [H | H]]]]; try discriminate H.
    vm_compute in H. inversion H; subst z. lia.
  - reflexivity.
  - reflexivity.
  - apply list_elem_of_here.
  - exists e', w2. exact H.
Defined.

(** The selected phrases a run hands to the translation stage (none when
    the sequential phase does not complete). *)
Definition pending_translations {S : Type} (collab : Collaborators S)
    (args : Args.t) (w : World S) : list Selected.t :=
  match for_words collab (numPhrases args) (words args) [] w with
  | (Normal selected, _) => selected
  | _ => []
  end.

(** C10.  Two runs on the same arguments, environment and world, in which
    every translation promise settles, end with the same exit status, the
    same standard output, the same file writes and the same state of the
    world, whatever the two settlement orders are. *)
Theorem runs_agree {S : Type} (collab : Collaborators S)
    (env : Env.t) (args : Args.t) (w : World S) (schedule1 schedule2 : list nat) :
  settles_all schedule1 (length (pending_translations collab args w)) ->
  settles_all schedule2 (length (pending_translations collab args w)) ->
  (script collab env args schedule1 w).1 = (script collab env args schedule2 w).1
  /\ stdout (trace (script collab env args schedule1 w).2)
     = stdout (trace (script collab env args schedule2 w).2)
  /\ written (trace (script collab env args schedule1 w).2)
     = written (trace (script collab env args schedule2 w).2)
  /\ backend (script collab env args schedule1 w).2
     = backend (script collab env args schedule2 w).2.
Proof.
  intros H1 H2. rewrite !script_unfold.
  destruct (config_error env args) as [msg|]; [done |].
  unfold pending_translations in H1, H2. unfold run_main, main, bind.
  destruct (for_words collab (numPhrases args) (words args) [] w)
    as [[selected|e|] w1]; [| done | done].
  destruct (forallb is_fulfilled (start_all collab selected w1).1) eqn:Hall.
  - destruct (translate_all_total collab selected schedule1 w1 H1 Hall) as [out1 E1].
    destruct (translate_all_total collab selected schedule2 w1 H2 Hall) as [out2 E2].
    assert (out2 = out1) as ->.
    { apply translate_all_normal in E1 as [T1 _].
      apply translate_all_normal in E2 as [T2 _].
      rewrite T1 in T2. symmetry. by apply Fulfilled_fmap_inj. }
    by rewrite E1, E2.
  - assert (exists i e, (start_all collab selected w1).1 !! i = Some (Rejected e))
      as (i & e & Hi).
    { clear -Hall. induction (start_all collab selected w1).1 as [|[pr|e] tasks IH];
        simpl in Hall; [discriminate | | by exists 0, e].
      destruct (IH Hall) as (i & e & Hi). by exists (Datatypes.S i), e. }
    assert (i < length selected) as Hlt.
    { destruct (start_all_spec collab selected w1) as [Hof _].
      apply Forall2_length in Hof. rewrite Hof. by eapply lookup_lt_Some. }
    destruct (translate_all_fails collab selected schedule1 w1 i e Hi (H1 i Hlt))
      as [e1 E1].
    destruct (translate_all_fails collab selected schedule2 w1 i e Hi (H2 i Hlt))
      as [e2 E2].
    rewrite E1, E2. unfold die. simpl. rewrite !stdout_app, !written_app. done.
Qed.

Lemma runs_agree_witness :
  stdout (trace (script Sample.happy Sample.env (Sample.args "run,jump" true)
                   [0; 1] Sample.start).2)
  = stdout (trace (script Sample.happy Sample.env (Sample.args "run,jump" true)
                     [1; 1; 0] Sample.start).2).
Proof.
  apply (runs_agree Sample.happy Sample.env (Sample.args "run,jump" true)
           Sample.start [0; 1] [1; 1; 0]).
  - intros i Hi. vm_compute in Hi. apply list_elem_of_In. simpl.
    destruct i as [|[|i]]; [auto | auto | lia].
  - intros i Hi. vm_compute in Hi. apply list_elem_of_In. simpl.
    destruct i as [|[|i]]; [auto | auto | lia].
Defined.

(** ** Lines of a text *)

Fixpoint contains (c : ascii) (s : string) : bool :=
  match s with
  | EmptyString => false
  | String a rest => Ascii.eqb a c || contains c rest
  end.

(** The lines of a text are what [split] on line feed gives. *)
Definition lines (content : string) : list string :=
  JS.split newline_char content.

Definition single_line (pr : Pair.t) : Prop :=
  contains newline_char (Pair.english pr) = false
  /\ contains newline_char (Pair.word pr) = false
  /\ contains newline_char (Pair.meaning pr) = false.

Lemma contains_app c (a b : string) :
  contains c (a +:+ b) = contains c a || contains c b.
Proof.
  induction a as [|x a IH]; simpl; [done |]. by rewrite IH, orb_assoc.
Qed.

Lemma split_not_nil sep s : JS.split sep s <> [].
Proof.
  destruct s as [|c s]; simpl; [done |].
  destruct (Ascii.eqb c sep); [done |]. by destruct (JS.split sep s).
Qed.

Lemma split_without sep s : contains sep s = false -> JS.split sep s = [s].
Proof.
  induction s as [|c s IH]; simpl; [done |].
  intros H. apply orb_false_elim in H as [Hc Hs]. by rewrite Hc, (IH Hs).
Qed.

Lemma split_segment sep (x rest : string) :
  contains sep x = false ->
  JS.split sep (x +:+ String sep rest) = x :: JS.split sep rest.
Proof.
  induction x as [|c x IH]; simpl.
  - intros _. by rewrite Ascii.eqb_refl.
  - intros H. apply orb_false_elim in H as [Hc Hx]. by rewrite Hc, (IH Hx).
Qed.

(** Joining with a separator and splitting on it gives the items back when
    no item holds the separator. *)
Lemma split_join sep (xs : list string) :
  xs <> [] ->
  Forall (fun x => contains sep x = false) xs ->
  JS.split sep (JS.join (String sep EmptyString) xs) = xs.
Proof.
  induction xs as [|x xs IH]; [done |]. intros _ Hall.
  apply Forall_cons in Hall as [Hx Hxs].
  destruct xs as [|y xs].
  - simpl. by apply split_without.
  - change (JS.join (String sep EmptyString) (x :: y :: xs))
      with (x +:+ String sep (JS.join (String sep EmptyString) (y :: xs))).
    rewrite (split_segment _ _ _ Hx). f_equal. by apply IH.
Qed.

Lemma flashcard_line_single pr :
  single_line pr -> contains newline_char (flashcard_line pr) = false.
Proof.
  intros (He & Hw & Hm). unfold flashcard_line.
  rewrite !contains_app, He, Hw, Hm. reflexivity.
Qed.

Lemma flashcard_lines_single translations :
  Forall single_line translations ->
  Forall (fun x => contains newline_char x = false) (flashcard_lines translations).
Proof.
  intros Hall. unfold flashcard_lines. apply Forall_app. split.
  - repeat constructor.
  - apply Forall_map. eapply Forall_impl; [exact Hall |].
    intros pr. apply flashcard_line_single.
Qed.

(** The claim on the export as the spec words it: the content is the
    header and the data lines joined by line feeds, and the file has three
    lines more than there are pairs. *)
Definition export_as_claimed (translations : list Pair.t) (content : string) : Prop :=
  content
  = JS.join nl (["#separator:tab"; "#html:true"; "#tags column:3"]
                ++ map flashcard_line translations)
  /\ length (lines content) = 3 + length translations.

(** C2 (as amended).  When the flashcards flag is set and the stages
    before the export succeeded, the script writes exactly one file,
    [flashcards.txt], whose content is the three header lines followed by
    one template item per pair, joined by line feeds with none at the end;
    when no english, word or meaning field holds a line feed, the lines of
    that content are exactly these items, three more than there are
    pairs. *)
Theorem export_content {S : Type} (collab : Collaborators S)
    (env : Env.t) (args : Args.t) (schedule : list nat) (w : World S)
    (selected : list Selected.t) (w1 : World S)
    (translations : list Pair.t) (w2 : World S) :
  ~ bad_configuration env args ->
  flashcards args = true ->
  for_words collab (numPhrases args) (words args) [] w = (Normal selected, w1) ->
  translate_all collab selected schedule w1 = (Normal translations, w2) ->
  written (trace (script collab env args schedule w).2)
  = written (trace w) ++ [("flashcards.txt", flashcardsContent translations)]
  /\ flashcardsContent translations
     = JS.join nl (["#separator:tab"; "#html:true"; "#tags column:3"]
                   ++ map flashcard_line translations)
  /\ (forall pr,
        flashcard_line pr
        = dq +:+ Pair.english pr +:+ " <b><span style=" +:+ dq
          +:+ "color: rgb(0, 0, 255);" +:+ dq +:+ ">" +:+ Pair.word pr
          +:+ "</span></b>" +:+ dq +:+ tab +:+ Pair.meaning pr)
  /\ (Forall single_line translations ->
      lines (flashcardsContent translations)
      = ["#separator:tab"; "#html:true"; "#tags column:3"]
        ++ map flashcard_line translations
      /\ export_as_claimed translations (flashcardsContent translations)).
Proof.
  intros Hok Hflag Hloop Htr.
  assert (Forall single_line translations ->
          lines (flashcardsContent translations) = flashcard_lines translations)
    as Hlines.
  { intros Hall. unfold lines, flashcardsContent, nl.
    apply split_join; [done |]. by apply flashcard_lines_single. }
  split; [| split; [reflexivity | split; [reflexivity |]]].
  - rewrite (script_valid collab env args schedule w Hok).
    unfold run_main, main, bind. rewrite Hloop, Htr, Hflag.
    pose proof (report_trace collab true translations w2) as Hr.
    assert (trace (match report collab true translations w2 with
                   | (Normal _, w') => (Exited 0%Z, w')
                   | (Throws e, w') => die ("An error occurred: " +:+ e) w'
                   | (Blocks, w') => (Blocked, w')
                   end).2
            = trace (report collab true translations w2).2
              ++ match (report collab true translations w2).1 with
                 | Throws e => [ConsoleError ("An error occurred: " +:+ e)]
                 | _ => []
                 end) as ->.
    { destruct (report collab true translations w2) as [[u|e|] w3]; simpl;
        by rewrite ?app_nil_r. }
    rewrite Hr. apply translate_all_normal in Htr as [_ ->].
    destruct (start_all_spec collab selected w1) as [_ ->].
    apply for_words_complete in Hloop as (rs & Hseq & _).
    apply sequential_phase_trace in Hseq. rewrite Hseq.
    rewrite !written_app.
    assert (written (concat (map (word_events (numPhrases args)) rs)) = []) as ->.
    { clear. induction rs as [|r rs IH]; [done |]. simpl. exact IH. }
    assert (written (map translation_request selected) = []) as ->.
    { clear. induction selected; done. }
    rewrite !app_nil_r.
    destruct (fs_writeFileSync collab _ _ _).1;
      destruct (report collab true translations _).1;
      cbn [written omap list_omap app]; by rewrite ?app_nil_r.
  - intros Hall. split; [by apply Hlines |]. split; [reflexivity |].
    rewrite (Hlines Hall). unfold flashcard_lines.
    rewrite length_app, length_map. reflexivity.
Qed.

Lemma export_content_witness :
  written (trace (script Sample.happy Sample.env (Sample.args "run" true) [0]
                    Sample.start).2)
  = [("flashcards.txt",
      flashcardsContent [Pair.Build "I run." "Eu corro." "to move fast" "run"])].
Proof.
  refine (proj1 (export_content Sample.happy Sample.env (Sample.args "run" true)
                   [0] Sample.start
                   [Selected.Build "I run." "to move fast" "run"]
                   (MkWorld tt (word_events (JS.Num 2)
                                  (WordRun.Build "run" "to move fast"
                                     ["I run."; "They run."] ["I run."])))
                   [Pair.Build "I run." "Eu corro." "to move fast" "run"]
                   (MkWorld tt
                      (word_events (JS.Num 2)
                         (WordRun.Build "run" "to move fast"
                            ["I run."; "They run."] ["I run."])
                       ++ [GenerateObject TranslationSchema
                             (translation_prompt "I run.")]))
                   _ _ _ _)).
  - intros [H | [H | [(z & H & Hz) | [H | H]]]]; try discriminate H.
    vm_compute in H. inversion H; subst z. lia.
  - reflexivity.
  - reflexivity.
  - reflexivity.
Defined.

(** A backend whose meaning spans two lines. *)
Definition two_line_meaning : Collaborators unit :=
  Sample.world (Fulfilled ("to move" +:+ nl +:+ "fast"))
    (Fulfilled ["I run."; "They run."]) (Fulfilled "Eu corro.")
    Sample.first_choice.

(** C2 as stated fails: with one pair whose meaning holds a line feed the
    exported content has five lines, not four. *)
Lemma export_line_count_counterexample :
  let translations :=
    [Pair.Build "I run." "Eu corro." ("to move" +:+ nl +:+ "fast") "run"] in
  (exists w1 w2 selected,
     for_words two_line_meaning (JS.Num 2) ["run"] [] Sample.start
     = (Normal selected, w1)
     /\ translate_all two_line_meaning selected [0] w1
        = (Normal translations, w2))
  /\ written (trace (script two_line_meaning Sample.env
                       (Sample.args "run" true) [0] Sample.start).2)
     = [("flashcards.txt", flashcardsContent translations)]
  /\ length (lines (flashcardsContent translations)) = 5
  /\ ~ export_as_claimed translations (flashcardsContent translations).
Proof.
  split; [| split; [| split]].
  - eexists. eexists. eexists. split; reflexivity.
  - reflexivity.
  - reflexivity.
  - intros [_ H]. vm_compute in H. discriminate H.
Qed.

(** The claim on [generatePhrases] as the spec words it: a returned list
    has at most [count] entries. *)
Definition phrases_bounded {S : Type} (collab : Collaborators S)
    (word : string) (count : Z) (w : World S) : Prop :=
  forall phrases w',
    generatePhrases collab word (JS.Num count) w = (Normal phrases, w') ->
    (Z.of_nat (length phrases) <= count)%Z.

(** C7 (as amended).  [generatePhrases word count] sends one request with
    the phrases schema and returns the [phrases] array of the answer as it
    is, in order and of whatever length; it throws exactly when the
    request is rejected. *)
Theorem generatePhrases_returns_answer {S : Type} (collab : Collaborators S)
    (word : string) (count : JS.number) (w : World S) :
  generatePhrases collab word count w
  = match generateObject collab PhrasesSchema (phrases_prompt word count)
            (backend w) with
    | (Fulfilled phrases, s') =>
        (Normal phrases,
         MkWorld s' (trace w ++ [GenerateObject PhrasesSchema
                                   (phrases_prompt word count)]))
    | (Rejected e, s') =>
        (Throws e,
         MkWorld s' (trace w ++ [GenerateObject PhrasesSchema
                                   (phrases_prompt word count)]))
    end.
Proof.
  unfold generatePhrases, bind, await_object, request_object.
  by destruct (generateObject collab PhrasesSchema _ (backend w)) as [[phrases|e] s'].
Qed.

(** A backend that answers with three phrases whatever number is asked. *)
Definition three_phrases : Collaborators unit :=
  Sample.world (Fulfilled "to move fast")
    (Fulfilled ["I run."; "They run."; "We run."]) (Fulfilled "Eu corro.")
    Sample.first_choice.

(** C7 as stated fails: asked for two phrases, [generatePhrases] returns
    the three that the backend sent. *)
Lemma generatePhrases_counterexample :
  generatePhrases three_phrases "run" (JS.Num 2) Sample.start
  = (Normal ["I run."; "They run."; "We run."],
     MkWorld tt [GenerateObject PhrasesSchema (phrases_prompt "run" (JS.Num 2))])
  /\ ~ phrases_bounded three_phrases "run" 2 Sample.start.
Proof.
  split; [reflexivity |].
  intros H. specialize (H _ _ eq_refl). simpl in H. lia.
Qed.

(** C6.  When the prompt for a word comes back with nothing ticked, the
    word adds no entry to [selectedPhrases] and the loop goes on with the
    remaining words from the world the prompt left. *)
Theorem empty_selection_adds_nothing {S : Type} (collab : Collaborators S)
    (numPhrases : JS.number) (word : string) (rest : list string)
    (selectedPhrases : list Selected.t) (w : World S)
    (meaning : string) (w1 : World S) (phrases : list string) (w2 w3 : World S) :
  getWordMeaning collab word w = (Normal meaning, w1) ->
  generatePhrases collab word numPhrases
    (logged (ConsoleLog (meaning_line word meaning)) w1) = (Normal phrases, w2) ->
  prompt_checkbox collab (choose_message word) (choices_of phrases) w2
    = (Normal [], w3) ->
  tagged word meaning [] = []
  /\ for_words collab numPhrases (word :: rest) selectedPhrases w
     = for_words collab numPhrases rest selectedPhrases w3.
Proof.
  intros H1 H2 H3. split; [reflexivity |].
  rewrite for_words_cons, H1, H2, H3. simpl. by rewrite app_nil_r.
Qed.

Definition nothing_ticked : Collaborators unit :=
  Sample.world (Fulfilled "to move fast") (Fulfilled ["I run."; "They run."])
    (Fulfilled "Eu corro.") Sample.no_choice.

Lemma empty_selection_adds_nothing_witness :
  for_words nothing_ticked (JS.Num 2) ["run"; "jump"] [] Sample.start
  = for_words nothing_ticked (JS.Num 2) ["jump"] []
      (MkWorld tt (word_events (JS.Num 2)
                     (WordRun.Build "run" "to move fast" ["I run."; "They run."] []))).
Proof.
  refine (proj2 (empty_selection_adds_nothing nothing_ticked (JS.Num 2) "run"
                   ["jump"] [] Sample.start "to move fast"
                   (MkWorld tt [GenerateObject MeaningSchema (meaning_prompt "run")])
                   ["I run."; "They run."]
                   (MkWorld tt [GenerateObject MeaningSchema (meaning_prompt "run");
                                ConsoleLog (meaning_line "run" "to move fast");
                                GenerateObject PhrasesSchema
                                  (phrases_prompt "run" (JS.Num 2))])
                   _ _ _ _)).
  - reflexivity.
  - reflexivity.
  - reflexivity.
Defined.

(** ** Calls of the sequential phase *)

(** The three collaborator calls of one word, in the order they are made. *)
Definition word_requests (numPhrases : JS.number) (r : WordRun.t) : list event :=
  [ GenerateObject MeaningSchema (meaning_prompt (WordRun.word r));
    GenerateObject PhrasesSchema (phrases_prompt (WordRun.word r) numPhrases);
    InquirerPrompt (choose_message (WordRun.word r))
      (choices_of (WordRun.phrases r)) ].

Definition is_sequential_request (e : event) : bool :=
  match e with
  | GenerateObject MeaningSchema _ | GenerateObject PhrasesSchema _
  | InquirerPrompt _ _ => true
  | _ => false
  end.

Definition sequential_requests (t : list event) : list event :=
  List.filter is_sequential_request t.

Lemma sequential_requests_app t1 t2 :
  sequential_requests (t1 ++ t2) = sequential_requests t1 ++ sequential_requests t2.
Proof. apply List.filter_app. Qed.

Lemma word_events_calls numPhrases rs :
  generate_calls MeaningSchema (concat (map (word_events numPhrases) rs))
  = map meaning_prompt (map WordRun.word rs)
  /\ generate_calls PhrasesSchema (concat (map (word_events numPhrases) rs))
     = map (fun word => phrases_prompt word numPhrases) (map WordRun.word rs)
  /\ generate_calls TranslationSchema (concat (map (word_events numPhrases) rs)) = []
  /\ sequential_requests (concat (map (word_events numPhrases) rs))
     = concat (map (word_requests numPhrases) rs).
Proof.
  induction rs as [|r rs (IH1 & IH2 & IH3 & IH4)]; [done |].
  repeat split.
  - simpl. by rewrite <- IH1.
  - simpl. by rewrite <- IH2.
  - exact IH3.
  - simpl. by rewrite <- IH4.
Qed.

Lemma translation_requests_calls selected :
  generate_calls MeaningSchema (map translation_request selected) = []
  /\ generate_calls PhrasesSchema (map translation_request selected) = []
  /\ generate_calls TranslationSchema (map translation_request selected)
     = map (fun p => translation_prompt (Selected.phrase p)) selected
  /\ sequential_requests (map translation_request selected) = [].
Proof.
  induction selected as [|p rest (IH1 & IH2 & IH3 & IH4)]; [done |].
  repeat split; try done. simpl. by rewrite <- IH3.
Qed.

Lemma outputs_calls t :
  forallb is_output t = true ->
  (forall sc, generate_calls sc t = []) /\ sequential_requests t = [].
Proof.
  induction t as [|e t IH]; [done |]. simpl. intros H.
  apply andb_prop in H as [He Ht]. destruct (IH Ht) as [IH1 IH2].
  destruct e; try discriminate; by split.
Qed.

(** The claim on the calls of the pipeline as the spec words it, for the
    events [t] that a run adds to the trace: one meaning request and one
    phrase request per word, in list order, and per word the meaning
    request, then the phrase request, then the prompt. *)
Definition calls_as_claimed (numPhrases : JS.number) (words : list string)
    (t : list event) : Prop :=
  generate_calls MeaningSchema t = map meaning_prompt words
  /\ generate_calls PhrasesSchema t
     = map (fun word => phrases_prompt word numPhrases) words
  /\ length (generate_calls MeaningSchema t) = length words
  /\ length (generate_calls PhrasesSchema t) = length words
  /\ exists rs,
       map WordRun.word rs = words
       /\ sequential_requests t = concat (map (word_requests numPhrases) rs).

Definition pipeline_calls_as_claimed {S : Type} (collab : Collaborators S)
    (env : Env.t) (args : Args.t) (schedule : list nat) (w : World S) : Prop :=
  exists t,
    trace (script collab env args schedule w).2 = trace w ++ t
    /\ calls_as_claimed (numPhrases args) (words args) t.

(** C4 (as amended).  For a valid configuration with k words, in every run
    in which the per-word loop completes (every meaning, phrase and
    selection call of the loop is answered, and none fails), the script
    makes exactly k meaning requests and k phrase requests, in the order
    of the word list (a repeated word is asked again), and for each word
    the meaning request comes before the phrase request, which comes
    before the prompt. *)
Theorem sequential_calls_in_order {S : Type} (collab : Collaborators S)
    (env : Env.t) (args : Args.t) (schedule : list nat) (w : World S)
    (selected : list Selected.t) (w1 : World S) :
  ~ bad_configuration env args ->
  for_words collab (numPhrases args) (words args) [] w = (Normal selected, w1) ->
  pipeline_calls_as_claimed collab env args schedule w.
Proof.
  intros Hok Hloop. unfold pipeline_calls_as_claimed.
  rewrite (script_valid collab env args schedule w Hok).
  destruct (run_main_after_loop collab _ _ (flashcards args) schedule _ _ _ Hloop)
    as (t3 & -> & Hout).
  apply for_words_complete in Hloop as (rs & Hseq & _).
  pose proof (sequential_phase_words _ _ _ _ _ _ Hseq) as Hwords.
  apply sequential_phase_trace in Hseq. rewrite Hseq, <- app_assoc.
  eexists. split; [reflexivity |].
  destruct (word_events_calls (numPhrases args) rs) as (E1 & E2 & _ & E4).
  destruct (translation_requests_calls selected) as (T1 & T2 & _ & T4).
  destruct (outputs_calls t3 Hout) as [O1 O4].
  assert (generate_calls MeaningSchema
            (concat (map (word_events (numPhrases args)) rs)
             ++ map translation_request selected ++ t3)
          = map meaning_prompt (words args)) as HM.
  { rewrite !generate_calls_app, E1, T1, O1, Hwords. by rewrite !app_nil_r. }
  assert (generate_calls PhrasesSchema
            (concat (map (word_events (numPhrases args)) rs)
             ++ map translation_request selected ++ t3)
          = map (fun word => phrases_prompt word (numPhrases args)) (words args))
    as HP.
  { rewrite !generate_calls_app, E2, T2, O1, Hwords. by rewrite !app_nil_r. }
  unfold calls_as_claimed. rewrite HM, HP, !length_map.
  repeat split. exists rs. split; [exact Hwords |].
  rewrite !sequential_requests_app, E4, T4, O4. by rewrite !app_nil_r.
Qed.

Lemma sequential_calls_in_order_witness :
  pipeline_calls_as_claimed Sample.happy Sample.env (Sample.args "run,run" false)
    [1; 0] Sample.start.
Proof.
  refine (sequential_calls_in_order Sample.happy Sample.env
            (Sample.args "run,run" false) [1; 0] Sample.start
            [Selected.Build "I run." "to move fast" "run";
             Selected.Build "I run." "to move fast" "run"]
            (MkWorld tt
               (word_events (JS.Num 2)
                  (WordRun.Build "run" "to move fast" ["I run."; "They run."]
                     ["I run."])
                ++ word_events (JS.Num 2)
                     (WordRun.Build "run" "to move fast" ["I run."; "They run."]
                        ["I run."])))
            _ _).
  - intros [H | [H | [(z & H & Hz) | [H | H]]]]; try discriminate H.
    vm_compute in H. inversion H; subst z. lia.
  - reflexivity.
Defined.

(** A backend that is down. *)
Definition backend_down : Collaborators unit :=
  Sample.world (Rejected "503") (Rejected "503") (Rejected "503")
    Sample.first_choice.

(** C4 as stated fails: with two valid words and a backend that rejects
    the first meaning request, the run makes one meaning request and no
    phrase request, and exits with status 1. *)
Lemma sequential_calls_counterexample :
  ~ bad_configuration Sample.env (Sample.args "run,jump" false)
  /\ words (Sample.args "run,jump" false) = ["run"; "jump"]
  /\ script backend_down Sample.env (Sample.args "run,jump" false) [] Sample.start
     = (Exited 1%Z,
        MkWorld tt [GenerateObject MeaningSchema (meaning_prompt "run");
                    ConsoleError "An error occurred: 503"])
  /\ ~ pipeline_calls_as_claimed backend_down Sample.env
         (Sample.args "run,jump" false) [] Sample.start.
Proof.
  split; [| split; [reflexivity | split; [reflexivity |]]].
  - intros [H | [H | [(z & H & Hz) | [H | H]]]]; try discriminate H.
    vm_compute in H. inversion H; subst z. lia.
  - intros (t & Ht & Hm & _).
    change (trace (script backend_down Sample.env (Sample.args "run,jump" false)
                     [] Sample.start).2)
      with ([] ++ [GenerateObject MeaningSchema (meaning_prompt "run");
                   ConsoleError "An error occurred: 503"]) in Ht.
    apply app_inv_head in Ht. subst t. vm_compute in Hm. discriminate Hm.
Qed.

Lemma word_selected_length rs :
  length (concat (map word_selected rs))
  = sum_list (map (fun r => length (WordRun.chosenPhrases r)) rs).
Proof.
  induction rs as [|r rs IH]; [done |]. simpl.
  rewrite length_app, IH. unfold word_selected, tagged. by rewrite length_map.
Qed.

Lemma word_selected_tags r :
  Forall (fun p => Selected.meaning p = WordRun.meaning r
                   /\ Selected.word p = WordRun.word r) (word_selected r).
Proof.
  unfold word_selected, tagged. apply Forall_map. apply Forall_true. by intros.
Qed.

(** The records of a completed loop are determined by the answers of the
    collaborators. *)
Lemma sequential_phase_functional {S : Type} (collab : Collaborators S)
    (numPhrases : JS.number) (words : list string) (w : World S)
    (rs rs' : list WordRun.t) (w1 w1' : World S) :
  sequential_phase collab numPhrases words w rs w1 ->
  sequential_phase collab numPhrases words w rs' w1' ->
  rs' = rs /\ w1' = w1.
Proof.
  intros Hseq. revert rs' w1'.
  induction Hseq as [w | word rest w meaning w1 phrases w2 chosen w3 rs w4 H1 H2 H3 _ IH];
    intros rs' w1' Hseq'; inversion Hseq'; subst.
  - done.
  - match goal with
    | H : getWordMeaning _ _ _ = _ |- _ => rewrite H1 in H; injection H as <- <-
    end.
    match goal with
    | H : generatePhrases _ _ _ _ = _ |- _ => rewrite H2 in H; injection H as <- <-
    end.
    match goal with
    | H : prompt_checkbox _ _ _ _ = _ |- _ => rewrite H3 in H; injection H as <- <-
    end.
    match goal with
    | H : sequential_phase _ _ _ _ _ _ |- _ => destruct (IH _ _ H) as [-> ->]
    end.
    done.
Qed.

(** Each record of a completed loop holds the phrases the prompt for its
    word came back with. *)
Lemma sequential_phase_ticks {S : Type} (collab : Collaborators S)
    (numPhrases : JS.number) (words : list string) (w : World S)
    (rs : list WordRun.t) (w1 : World S) :
  sequential_phase collab numPhrases words w rs w1 ->
  Forall (fun r =>
            exists wa wb,
              prompt_checkbox collab (choose_message (WordRun.word r))
                (choices_of (WordRun.phrases r)) wa
              = (Normal (WordRun.chosenPhrases r), wb)) rs.
Proof.
  induction 1 as [w | word rest w meaning w1 phrases w2 chosen w3 rs w4 H1 H2 H3 _ IH];
    constructor; [| exact IH].
  by exists w2, w3.
Qed.

(** C8.  When the loop over the words completes, the list it has built is
    the concatenation, in word order, of the phrases ticked for each word,
    each tagged with that word and its meaning, so its length is the sum
    of the sizes of the selections.  The selections are the ones the
    prompt returned: the per-word records [rs] are those of
    [sequential_phase], which holds for each word the meaning that
    [getWordMeaning] returned, the phrases that [generatePhrases] returned
    and the list the prompt came back with, and no other records fit the
    run.  [main] hands exactly this list to the translation stage, from
    the world the loop ended in; no translation request is made during
    the loop, they all follow it in list order; and a loop that throws
    makes [main] throw without any translation request. *)
Theorem accumulation_invariant {S : Type} (collab : Collaborators S)
    (numPhrases : JS.number) (words : list string) (flashcards : bool)
    (schedule : list nat) (w : World S) :
  (forall selected w1,
     for_words collab numPhrases words [] w = (Normal selected, w1) ->
     (exists rs,
        sequential_phase collab numPhrases words w rs w1
        /\ (forall rs' w1',
              sequential_phase collab numPhrases words w rs' w1' -> rs' = rs)
        /\ Forall (fun r =>
                     exists wa wb,
                       prompt_checkbox collab (choose_message (WordRun.word r))
                         (choices_of (WordRun.phrases r)) wa
                       = (Normal (WordRun.chosenPhrases r), wb)) rs
        /\ map WordRun.word rs = words
        /\ selected = concat (map word_selected rs)
        /\ length selected
           = sum_list (map (fun r => length (WordRun.chosenPhrases r)) rs)
        /\ Forall (fun r =>
                     Forall (fun p => Selected.meaning p = WordRun.meaning r
                                      /\ Selected.word p = WordRun.word r)
                       (word_selected r)) rs
        /\ trace w1 = trace w ++ concat (map (word_events numPhrases) rs))
     /\ main collab words numPhrases flashcards schedule w
        = bind (translate_all collab selected schedule)
            (report collab flashcards) w1
     /\ generate_calls TranslationSchema (trace w1)
        = generate_calls TranslationSchema (trace w)
     /\ trace (translate_all collab selected schedule w1).2
        = trace w1 ++ map translation_request selected)
  /\ (forall e w1,
        for_words collab numPhrases words [] w = (Throws e, w1) ->
        main collab words numPhrases flashcards schedule w = (Throws e, w1)
        /\ generate_calls TranslationSchema (trace w1)
           = generate_calls TranslationSchema (trace w)).
Proof.
  split.
  - intros selected w1 Hloop.
    destruct (for_words_complete collab _ _ _ _ _ _ Hloop) as (rs & Hseq & Hsel).
    simpl in Hsel.
    pose proof (sequential_phase_trace collab _ _ _ _ _ Hseq) as Htrace.
    split; [| split; [| split]].
    + exists rs. split; [exact Hseq |].
      split.
      { intros rs' w1' Hseq'.
        by destruct (sequential_phase_functional collab _ _ _ _ _ _ _ Hseq Hseq'). }
      split; [by eapply sequential_phase_ticks |].
      split; [by eapply sequential_phase_words |].
      split; [exact Hsel |]. split; [rewrite Hsel; apply word_selected_length |].
      split; [| exact Htrace].
      apply Forall_forall. intros r _. apply word_selected_tags.
    + unfold main. unfold bind at 1. by rewrite Hloop.
    + rewrite Htrace, generate_calls_app.
      destruct (word_events_calls numPhrases rs) as (_ & _ & -> & _).
      by rewrite app_nil_r.
    + rewrite translate_all_world. by destruct (start_all_spec collab selected w1).
  - intros e w1 Hloop. split.
    + unfold main. unfold bind at 1. by rewrite Hloop.
    + destruct (for_words_grows collab numPhrases words [] w) as (t & Ht & Hev & _).
      rewrite Hloop in Ht. simpl in Ht.
      rewrite Ht, generate_calls_app, (loop_events_translation _ Hev).
      by rewrite app_nil_r.
Qed.

Lemma accumulation_invariant_witness :
  exists rs,
    sequential_phase Sample.happy (JS.Num 2) ["run"; "jump"] Sample.start rs
      (for_words Sample.happy (JS.Num 2) ["run"; "jump"] [] Sample.start).2
    /\ [Selected.Build "I run." "to move fast" "run";
        Selected.Build "I run." "to move fast" "jump"]
       = concat (map word_selected rs).
Proof.
  destruct (proj1 (accumulation_invariant Sample.happy (JS.Num 2) ["run"; "jump"]
                     true [0; 1] Sample.start)
              [Selected.Build "I run." "to move fast" "run";
               Selected.Build "I run." "to move fast" "jump"]
              (MkWorld tt
                 (word_events (JS.Num 2)
                    (WordRun.Build "run" "to move fast" ["I run."; "They run."]
                       ["I run."])
                  ++ word_events (JS.Num 2)
                       (WordRun.Build "jump" "to move fast"
                          ["I run."; "They run."] ["I run."])))
              eq_refl) as ((rs & Hseq & _ & _ & _ & Hs & _) & _).
  exists rs. split; [exact Hseq | exact Hs].
Defined.

(** ** Empty segments of [-w] *)





(** * Further properties of the script *)

(** ** The loop composes and only appends *)

Section Loop.

Context {S : Type} (collab : Collaborators S).
Implicit Types (w : World S) (numPhrases : JS.number).

(** No step of the loop can block: every handler answers. *)
Lemma for_words_never_blocks numPhrases words acc w w' :
  for_words collab numPhrases words acc w <> (Blocks, w').
Proof.
  revert acc w. induction words as [|word rest IH]; intros acc w; [done |].
  rewrite for_words_cons.
  destruct (getWordMeaning collab word w) as [[meaning|e|] w1] eqn:H1; [| done |].
  - destruct (generatePhrases collab word numPhrases _) as [[phrases|e|] w2] eqn:H2;
      [| done |].
    + destruct (prompt_checkbox collab _ _ w2) as [[chosen|e|] w3] eqn:H3;
        [apply IH | done |].
      unfold prompt_checkbox, await in H3.
      by destruct (inquirer_prompt collab _ _ (backend w2)) as [[?|?] ?].
    + unfold generatePhrases, bind, await_object, request_object, await in H2.
      by destruct (generateObject collab PhrasesSchema _ _) as [[?|?] ?].
  - unfold getWordMeaning, bind, await_object, request_object, await in H1.
    by destruct (generateObject collab MeaningSchema _ _) as [[?|?] ?].
Qed.

(** What was pushed before is a prefix of the result, whatever the loop
    does afterwards. *)
Lemma for_words_prefix numPhrases words acc w :
  for_words collab numPhrases words acc w
  = match for_words collab numPhrases words [] w with
    | (Normal selected, w') => (Normal (acc ++ selected), w')
    | (Throws e, w') => (Throws e, w')
    | (Blocks, w') => (Blocks, w')
    end.
Proof.
  revert acc w. induction words as [|word rest IH]; intros acc w.
  - simpl. unfold ret. by rewrite app_nil_r.
  - rewrite !for_words_cons.
    destruct (getWordMeaning collab word w) as [[meaning|e|] w1]; [| done ..].
    destruct (generatePhrases collab word numPhrases _) as [[phrases|e|] w2];
      [| done ..].
    destruct (prompt_checkbox collab _ _ w2) as [[chosen|e|] w3]; [| done ..].
    rewrite (IH (acc ++ _)), (IH ([] ++ _)).
    destruct (for_words collab numPhrases rest [] w3) as [[selected|e|] w4];
      [| done ..].
    by rewrite app_assoc.
Qed.

(** Looping over [ws1 ++ ws2] is looping over [ws1], then over [ws2] from
    where the first loop ended. *)
Lemma for_words_app numPhrases ws1 ws2 acc w :
  for_words collab numPhrases (ws1 ++ ws2) acc w
  = match for_words collab numPhrases ws1 acc w with
    | (Normal acc', w') => for_words collab numPhrases ws2 acc' w'
    | (Throws e, w') => (Throws e, w')
    | (Blocks, w') => (Blocks, w')
    end.
Proof.
  revert acc w. induction ws1 as [|word rest IH]; intros acc w; [done |].
  change ((word :: rest) ++ ws2) with (word :: (rest ++ ws2)).
  rewrite !for_words_cons.
  destruct (getWordMeaning collab word w) as [[meaning|e|] w1]; [| done ..].
  destruct (generatePhrases collab word numPhrases _) as [[phrases|e|] w2];
    [| done ..].
  destruct (prompt_checkbox collab _ _ w2) as [[chosen|e|] w3]; [| done ..].
  apply IH.
Qed.

(** A word whose processing throws makes at least its meaning request and
    no meaning request for any other word. *)
Lemma failing_word_calls numPhrases word acc w e w' :
  for_words collab numPhrases [word] acc w = (Throws e, w') ->
  generate_calls MeaningSchema (trace w')
  = generate_calls MeaningSchema (trace w) ++ [meaning_prompt word].
Proof.
  rewrite for_words_cons.
  pose proof (getWordMeaning_trace collab word w) as T1.
  destruct (getWordMeaning collab word w) as [[meaning|e1|] w1]; simpl in T1;
    [| intros [= <- <-]; by rewrite T1, generate_calls_app | done].
  pose proof (generatePhrases_trace collab word numPhrases
                (logged (ConsoleLog (meaning_line word meaning)) w1)) as T2.
  destruct (generatePhrases collab word numPhrases _) as [[phrases|e2|] w2];
    simpl in T2;
    [| intros [= <- <-]; rewrite T2, T1, !generate_calls_app; simpl;
       by rewrite !app_nil_r | done].
  pose proof (prompt_checkbox_trace collab (choose_message word)
                (choices_of phrases) w2) as T3.
  destruct (prompt_checkbox collab _ _ w2) as [[chosen|e3|] w3]; simpl in T3;
    [done | | done].
  intros [= <- <-]. rewrite T3, T2, T1, !generate_calls_app. simpl.
  by rewrite !app_nil_r.
Qed.

End Loop.

(** X1.  The loop only appends to [selectedPhrases]: started with entries
    already in the array, it ends (or fails) exactly as when started
    empty, with those entries kept in front, unchanged and in order. *)
Theorem loop_is_append_only {S : Type} (collab : Collaborators S)
    (numPhrases : JS.number) (words : list string) (acc : list Selected.t)
    (w : World S) :
  (forall selected w',
     for_words collab numPhrases words [] w = (Normal selected, w') ->
     for_words collab numPhrases words acc w = (Normal (acc ++ selected), w'))
  /\ (forall final w',
        for_words collab numPhrases words acc w = (Normal final, w') ->
        exists selected,
          final = acc ++ selected
          /\ for_words collab numPhrases words [] w = (Normal selected, w'))
  /\ (forall e w',
        for_words collab numPhrases words acc w = (Throws e, w')
        <-> for_words collab numPhrases words [] w = (Throws e, w')).
Proof.
  rewrite (for_words_prefix collab numPhrases words acc w).
  destruct (for_words collab numPhrases words [] w) as [[selected|e|] w1].
  - split; [| split].
    + by intros ? ? [= <- <-].
    + intros final w' [= <- <-]. by exists selected.
    + done.
  - split; [| split]; done.
  - split; [| split]; done.
Qed.

Lemma loop_is_append_only_witness :
  for_words Sample.happy (JS.Num 2) ["jump"]
    [Selected.Build "I run." "to move fast" "run"] Sample.start
  = (Normal ([Selected.Build "I run." "to move fast" "run"]
             ++ [Selected.Build "I run." "to move fast" "jump"]),
     MkWorld tt (word_events (JS.Num 2)
                   (WordRun.Build "jump" "to move fast" ["I run."; "They run."]
                      ["I run."]))).
Proof.
  apply (proj1 (loop_is_append_only Sample.happy (JS.Num 2) ["jump"]
                  [Selected.Build "I run." "to move fast" "run"] Sample.start)).
  reflexivity.
Defined.

(** X2.  The run stops at the first word whose processing throws: when the
    words before it went through and it fails with [e], the script reports
    [e] on standard error and exits with status 1 from the world that
    failure left, whatever words follow; meaning requests were made for
    the words up to the failing one and for none after it, and the
    announcements already printed stay. *)
Theorem run_stops_at_first_failure {S : Type} (collab : Collaborators S)
    (env : Env.t) (args : Args.t) (schedule : list nat) (w : World S)
    (before : list string) (word : string) (after : list string)
    (selected : list Selected.t) (w1 : World S) (e : error) (w2 : World S) :
  ~ bad_configuration env args ->
  words args = before ++ word :: after ->
  for_words collab (numPhrases args) before [] w = (Normal selected, w1) ->
  for_words collab (numPhrases args) [word] selected w1 = (Throws e, w2) ->
  script collab env args schedule w
  = (Exited 1%Z,
     MkWorld (backend w2)
       (trace w2 ++ [ConsoleError ("An error occurred: " +:+ e)]))
  /\ generate_calls MeaningSchema (trace w2)
     = generate_calls MeaningSchema (trace w)
       ++ map meaning_prompt (before ++ [word])
  /\ (exists t, trace w2 = trace w1 ++ t)
  /\ written (trace (script collab env args schedule w).2) = written (trace w).
Proof.
  intros Hok Hwords Hbefore Hword.
  assert (for_words collab (numPhrases args) (words args) [] w = (Throws e, w2))
    as Hloop.
  { rewrite Hwords, for_words_app, Hbefore.
    change (word :: after) with ([word] ++ after).
    by rewrite for_words_app, Hword. }
  pose proof (failing_word_calls collab _ _ _ _ _ _ Hword) as Hcalls.
  destruct (for_words_grows collab (numPhrases args) [word] selected w1)
    as (t & Ht & Hev & _).
  rewrite Hword in Ht. simpl in Ht.
  destruct (for_words_complete collab _ _ _ _ _ _ Hbefore) as (rs & Hseq & _).
  pose proof (sequential_phase_words collab _ _ _ _ _ Hseq) as Hrs.
  pose proof (sequential_phase_trace collab _ _ _ _ _ Hseq) as Htr.
  assert (script collab env args schedule w
          = (Exited 1%Z,
             MkWorld (backend w2)
               (trace w2 ++ [ConsoleError ("An error occurred: " +:+ e)]))) as Hrun.
  { rewrite (script_valid collab env args schedule w Hok).
    unfold run_main, main, bind. by rewrite Hloop. }
  split; [exact Hrun |]. split; [| split; [by exists t |]].
  - rewrite Hcalls, Htr, generate_calls_app.
    destruct (word_events_calls (numPhrases args) rs) as (-> & _).
    by rewrite Hrs, map_app, app_assoc.
  - rewrite Hrun. simpl. rewrite written_app, Ht, Htr, !written_app. simpl.
    rewrite (loop_events_written _ Hev).
    assert (written (concat (map (word_events (numPhrases args)) rs)) = []) as ->.
    { clear. induction rs as [|r rs IH]; [done |]. simpl. exact IH. }
    by rewrite !app_nil_r.
Qed.

Definition phrases_down : Collaborators unit :=
  Sample.world (Fulfilled "to move fast") (Rejected "503") (Fulfilled "Eu corro.")
    Sample.first_choice.

Lemma run_stops_at_first_failure_witness :
  script phrases_down Sample.env (Sample.args "run,jump" true) [] Sample.start
  = (Exited 1%Z,
     MkWorld tt
       ([GenerateObject MeaningSchema (meaning_prompt "run");
         ConsoleLog (meaning_line "run" "to move fast");
         GenerateObject PhrasesSchema (phrases_prompt "run" (JS.Num 2))]
        ++ [ConsoleError "An error occurred: 503"])).
Proof.
  refine (proj1 (run_stops_at_first_failure phrases_down Sample.env
                   (Sample.args "run,jump" true) [] Sample.start
                   [] "run" ["jump"] [] Sample.start "503"
                   (MkWorld tt
                      [GenerateObject MeaningSchema (meaning_prompt "run");
                       ConsoleLog (meaning_line "run" "to move fast");
                       GenerateObject PhrasesSchema
                         (phrases_prompt "run" (JS.Num 2))])
                   _ _ _ _)).
  - intros [H | [H | [(z & H & Hz) | [H | H]]]]; try discriminate H.
    vm_compute in H. inversion H; subst z. lia.
  - reflexivity.
  - reflexivity.
  - reflexivity.
Defined.

(** ** When the batch resolves, rejects or stays pending *)

Section Batch.

Context {A : Type}.
Implicit Types (tasks : list (outcome A)) (values : list (option A)).
Implicit Types (schedule : list nat) (out : list A).

(** No promise of [l] settles rejected. *)
Definition none_rejected tasks (l : list nat) : Prop :=
  forall j, j ∈ l -> forall e, tasks !! j <> Some (Rejected e).

Lemma gather_resolved_covers tasks schedule values out :
  gather tasks schedule values = Resolved out ->
  forall i, values !! i = Some None -> i ∈ schedule.
Proof.
  revert values. induction schedule as [|j rest IH]; intros values; simpl;
    [discriminate |].
  destruct (tasks !! j) as [[v|e]|] eqn:Hj; [| discriminate |].
  - destruct (mapM id (<[j:=Some v]> values)) as [vs|] eqn:Hfull.
    + intros _ i Hi. destruct (decide (i = j)) as [-> | Hne];
        [apply list_elem_of_here |]. exfalso.
      apply mapM_Some in Hfull.
      assert (<[j:=Some v]> values !! i = Some None) as Hi'.
      { by rewrite list_lookup_insert_ne. }
      destruct (Forall2_lookup_l _ _ _ _ _ Hfull Hi') as (y & _ & Hy). done.
    + intros H i Hi. destruct (decide (i = j)) as [-> | Hne];
        [apply list_elem_of_here |].
      apply list_elem_of_further, (IH _ H). by rewrite list_lookup_insert_ne.
  - intros H i Hi. apply list_elem_of_further. by eapply IH.
Qed.

Lemma gather_first_rejection tasks schedule values e :
  gather tasks schedule values = RejectedWith e ->
  exists pre i post,
    schedule = pre ++ i :: post
    /\ tasks !! i = Some (Rejected e)
    /\ none_rejected tasks pre.
Proof.
  revert values. induction schedule as [|j rest IH]; intros values; simpl;
    [discriminate |].
  destruct (tasks !! j) as [[v|e']|] eqn:Hj.
  - destruct (mapM id (<[j:=Some v]> values)); [discriminate |].
    intros H. destruct (IH _ H) as (pre & i & post & -> & Hi & Hpre).
    exists (j :: pre), i, post. split; [done |]. split; [done |].
    intros k Hk e'. apply elem_of_cons in Hk as [-> | Hk]; [congruence |].
    by apply Hpre.
  - intros [= ->]. exists [], j, rest. split; [done |]. split; [done |].
    intros k Hk. by apply elem_of_nil in Hk.
  - intros H. destruct (IH _ H) as (pre & i & post & -> & Hi & Hpre).
    exists (j :: pre), i, post. split; [done |]. split; [done |].
    intros k Hk e'. apply elem_of_cons in Hk as [-> | Hk]; [congruence |].
    by apply Hpre.
Qed.

Lemma gather_rejects_first tasks pre i post values e :
  slots_ok tasks values ->
  tasks !! i = Some (Rejected e) ->
  none_rejected tasks pre ->
  gather tasks (pre ++ i :: post) values = RejectedWith e.
Proof.
  intros Hok Hi. revert values Hok.
  induction pre as [|j pre IH]; intros values Hok Hpre; simpl.
  - by rewrite Hi.
  - assert (none_rejected tasks pre) as Hpre'.
    { intros k Hk. apply Hpre. by apply list_elem_of_further. }
    destruct (tasks !! j) as [[v|e']|] eqn:Hj.
    + destruct (mapM id (<[j:=Some v]> values)) as [vs|] eqn:Hfull.
      * exfalso.
        pose proof (slots_ok_full _ _ _ (slots_ok_fill _ _ _ _ Hok Hj) Hfull) as ->.
        rewrite list_lookup_fmap in Hi. destruct (vs !! i); discriminate.
      * apply IH; [by apply slots_ok_fill | done].
    + exfalso. eapply (Hpre j); [apply list_elem_of_here | exact Hj].
    + by apply IH.
Qed.

Lemma Promise_all_resolves_iff tasks schedule out :
  Promise_all tasks schedule = Resolved out
  <-> tasks = Fulfilled <$> out /\ settles_all schedule (length tasks).
Proof.
  split.
  - intros H. split; [by eapply Promise_all_resolved |].
    unfold Promise_all in H. destruct tasks as [|t tasks].
    + intros i Hi. simpl in Hi. lia.
    + intros i Hi. eapply gather_resolved_covers; [exact H |].
      by apply lookup_replicate_2.
  - intros [-> Hsch]. apply Promise_all_complete.
    by rewrite length_fmap in Hsch.
Qed.

Lemma Promise_all_rejects_iff tasks schedule e :
  Promise_all tasks schedule = RejectedWith e
  <-> exists pre i post,
        schedule = pre ++ i :: post
        /\ tasks !! i = Some (Rejected e)
        /\ none_rejected tasks pre.
Proof.
  unfold Promise_all. split.
  - destruct tasks as [|t tasks]; [discriminate |]. apply gather_first_rejection.
  - intros (pre & i & post & -> & Hi & Hpre).
    destruct tasks as [|t tasks]; [done |].
    by apply gather_rejects_first; [apply slots_ok_start | |].
Qed.

Lemma all_fulfilled_or_rejected tasks :
  (exists out, tasks = Fulfilled <$> out)
  \/ (exists i e, tasks !! i = Some (Rejected e)).
Proof.
  induction tasks as [|[v|e] tasks [[out ->] | (i & e' & Hi)]].
  - left. by exists [].
  - left. by exists (v :: out).
  - right. by exists (Datatypes.S i), e'.
  - right. by exists 0, e.
  - right. by exists 0, e.
Qed.

Lemma Promise_all_pending_iff tasks schedule :
  Promise_all tasks schedule = StillPending
  <-> none_rejected tasks schedule
      /\ exists i, i < length tasks /\ i ∉ schedule.
Proof.
  split.
  - intros Hpend.
    assert (none_rejected tasks schedule) as Hnone.
    { intros j Hj e Hr.
      destruct (Promise_all_fails tasks schedule j e Hr Hj) as [e' He'].
      congruence. }
    split; [exact Hnone |].
    destruct (Forall_Exists_dec (fun i => i ∈ schedule) (fun i => i ∉ schedule)
                (fun i => decide (i ∈ schedule)) (seq 0 (length tasks)))
      as [Hall | Hex].
    + exfalso.
      assert (settles_all schedule (length tasks)) as Hsch.
      { intros i Hi. eapply (proj1 (Forall_forall _ _) Hall).
        apply elem_of_seq. lia. }
      destruct (all_fulfilled_or_rejected tasks) as [[out Hout] | (i & e & Hi)].
      * assert (Promise_all tasks schedule = Resolved out) as Hres.
        { by apply Promise_all_resolves_iff. }
        congruence.
      * eapply (Hnone i); [| exact Hi]. apply Hsch. by eapply lookup_lt_Some.
    + apply Exists_exists in Hex as (i & Hi & Hni). exists i.
      apply elem_of_seq in Hi. split; [lia | done].
  - intros [Hnone (i & Hi & Hni)].
    destruct (Promise_all tasks schedule) as [out|e|] eqn:Hall; [| | done].
    + exfalso. apply Promise_all_resolves_iff in Hall as [_ Hsch].
      by apply Hni, Hsch.
    + exfalso. apply Promise_all_rejected in Hall as (j & Hj & Hr).
      by eapply Hnone.
Qed.

End Batch.

(** ** The shapes a run can take *)

Section Runs.

Context {S : Type} (collab : Collaborators S).
Implicit Types (w : World S) (numPhrases : JS.number).

Definition final_output_line : string := nl +:+ "Final Output:" +:+ nl.

Definition outputContent (translations : list Pair.t) : string :=
  JS.join (nl +:+ nl) (map summary_block translations).

Definition error_line (e : error) : string := "An error occurred: " +:+ e.

Definition export_call (translations : list Pair.t) : event :=
  WriteFileSync "flashcards.txt" (flashcardsContent translations).

(** [report], completion and world spelled out. *)
Lemma report_result flag translations w :
  report collab flag translations w
  = if flag then
      match fs_writeFileSync collab "flashcards.txt"
              (flashcardsContent translations) (backend w) with
      | (Fulfilled _, s') =>
          (Normal tt,
           MkWorld s' (trace w ++ [ConsoleLog final_output_line;
                                   ConsoleLog (outputContent translations);
                                   export_call translations;
                                   ConsoleLog generated_line]))
      | (Rejected e, s') =>
          (Throws e,
           MkWorld s' (trace w ++ [ConsoleLog final_output_line;
                                   ConsoleLog (outputContent translations);
                                   export_call translations]))
      end
    else
      (Normal tt,
       MkWorld (backend w) (trace w ++ [ConsoleLog final_output_line;
                                        ConsoleLog (outputContent translations)])).
Proof.
  unfold report, bind, console_log, emit, writeFileSync, await, ret. simpl.
  destruct flag; simpl.
  - destruct (fs_writeFileSync collab _ _ (backend w)) as [[u|e] s']; simpl;
      rewrite <- !app_assoc; simpl; [by destruct u | done].
  - by rewrite <- !app_assoc.
Qed.

(** How a run that got past the checks can end, with the events it adds
    after the translation requests. *)
Definition run_ending (flag : bool) (st : status) (t : list event) : Prop :=
  (st = Exited 1%Z /\ exists e, t = [ConsoleError (error_line e)])
  \/ (st = Blocked /\ t = [])
  \/ exists translations,
       (st = Exited 0%Z /\ flag = false
        /\ t = [ConsoleLog final_output_line;
                ConsoleLog (outputContent translations)])
       \/ (st = Exited 0%Z /\ flag = true
           /\ t = [ConsoleLog final_output_line;
                   ConsoleLog (outputContent translations);
                   export_call translations; ConsoleLog generated_line])
       \/ (st = Exited 1%Z /\ flag = true
           /\ exists e,
                t = [ConsoleLog final_output_line;
                     ConsoleLog (outputContent translations);
                     export_call translations; ConsoleError (error_line e)]).

Lemma run_main_shape words numPhrases flag schedule w :
  exists t1 selected t3,
    trace (run_main collab words numPhrases flag schedule w).2
    = trace w ++ t1 ++ map translation_request selected ++ t3
    /\ forallb loop_event t1 = true
    /\ run_ending flag (run_main collab words numPhrases flag schedule w).1 t3.
Proof.
  destruct (for_words_grows collab numPhrases words [] w) as (t1 & Ht1 & Hev & _).
  unfold run_main, main, bind.
  destruct (for_words collab numPhrases words [] w) as [[selected|e|] w1] eqn:Hloop;
    simpl in Ht1.
  - pose proof (translate_all_world collab selected schedule w1) as Hw2.
    destruct (start_all_spec collab selected w1) as [_ Ht2].
    destruct (translate_all collab selected schedule w1)
      as [[translations|e|] w2]; simpl in Hw2; subst w2.
    + exists t1, selected. rewrite report_result. destruct flag.
      * destruct (fs_writeFileSync collab _ _ _) as [[u|e] s']; simpl.
        -- eexists. split; [by rewrite Ht2, Ht1, <- !app_assoc |].
           split; [done |]. right. right. exists translations. right. left. done.
        -- eexists. split; [by rewrite Ht2, Ht1, <- !app_assoc |].
           split; [done |]. right. right. exists translations. right. right.
           split; [done |]. split; [done |]. by exists e.
      * simpl. eexists. split; [by rewrite Ht2, Ht1, <- !app_assoc |].
        split; [done |]. right. right. exists translations. left. done.
    + exists t1, selected, [ConsoleError (error_line e)]. simpl.
      split; [by rewrite Ht2, Ht1, <- !app_assoc |]. split; [done |].
      left. split; [done |]. by exists e.
    + exists t1, selected, []. simpl.
      split; [by rewrite Ht2, Ht1, <- !app_assoc, app_nil_r |]. split; [done |].
      right. left. done.
  - exists t1, [], [ConsoleError (error_line e)]. simpl.
    split; [by rewrite Ht1, <- !app_assoc |]. split; [done |].
    left. split; [done |]. by exists e.
  - exfalso. by eapply for_words_never_blocks.
Qed.

Lemma loop_events_stderr t : forallb loop_event t = true -> stderr t = [].
Proof.
  induction t as [|e t IH]; [done |]. simpl. intros H.
  apply andb_prop in H as [He Ht]. destruct e; try discriminate; by apply IH.
Qed.

Lemma translation_requests_quiet selected :
  stderr (map translation_request selected) = []
  /\ written (map translation_request selected) = []
  /\ stdout (map translation_request selected) = [].
Proof. induction selected as [|p rest IH]; [done | exact IH]. Qed.

Lemma stderr_app t1 t2 : stderr (t1 ++ t2) = stderr t1 ++ stderr t2.
Proof. apply omap_app. Qed.

End Runs.

(** The events a run added to the trace it started from. *)
Definition added {S : Type} (w w' : World S) : list event :=
  drop (length (trace w)) (trace w').

Lemma added_app {S : Type} (w w' : World S) t :
  trace w' = trace w ++ t -> added w w' = t.
Proof. intros H. unfold added. rewrite H. apply drop_app_length. Qed.

Lemma script_shape {S : Type} (collab : Collaborators S) (env : Env.t)
    (args : Args.t) (schedule : list nat) (w : World S) :
  (exists msg,
     msg ∈ config_messages
     /\ (script collab env args schedule w).1 = Exited 1%Z
     /\ added w (script collab env args schedule w).2 = [ConsoleError msg])
  \/ (exists t1 selected t3,
        added w (script collab env args schedule w).2
        = t1 ++ map translation_request selected ++ t3
        /\ forallb loop_event t1 = true
        /\ run_ending (flashcards args) (script collab env args schedule w).1 t3).
Proof.
  rewrite script_unfold. destruct (config_error env args) as [msg|] eqn:Hcfg.
  - left. exists msg. split; [by eapply config_error_message |].
    split; [done |]. by apply added_app.
  - right.
    destruct (run_main_shape collab (words args) (numPhrases args)
                (flashcards args) schedule w) as (t1 & selected & t3 & Ht & Hev & Hend).
    exists t1, selected, t3. split; [by apply added_app | done].
Qed.

(** X3.  The script exits with status 1 exactly when it has printed to
    standard error, and then it has printed one message only, as the last
    thing it did; the only other exit status is 0. *)
Theorem exit_1_iff_stderr {S : Type} (collab : Collaborators S) (env : Env.t)
    (args : Args.t) (schedule : list nat) (w : World S) :
  ((script collab env args schedule w).1 = Exited 1%Z
   <-> stderr (added w (script collab env args schedule w).2) <> [])
  /\ ((script collab env args schedule w).1 = Exited 1%Z ->
      exists t msg,
        added w (script collab env args schedule w).2 = t ++ [ConsoleError msg]
        /\ stderr t = [])
  /\ (forall code,
        (script collab env args schedule w).1 = Exited code ->
        code = 0%Z \/ code = 1%Z).
Proof.
  destruct (script_shape collab env args schedule w)
    as [(msg & _ & Hst & Hadd) | (t1 & selected & t3 & Hadd & Hev & Hend)];
    rewrite Hadd.
  - rewrite Hst. split; [done |]. split.
    + intros _. by exists [], msg.
    + intros code [= <-]. by right.
  - destruct (translation_requests_quiet selected) as (Hq & _ & _).
    pose proof (loop_events_stderr _ Hev) as Hl.
    rewrite !stderr_app, Hl, Hq. simpl.
    destruct Hend as [[-> (e & ->)] | [[-> ->] | (ts & [(-> & _ & ->)
      | [(-> & _ & ->) | (-> & _ & e & ->)]])]]; simpl.
    + split; [done |]. split.
      * intros _. exists (t1 ++ map translation_request selected), (error_line e).
        split; [by rewrite <- app_assoc |]. by rewrite stderr_app, Hl, Hq.
      * intros code [= <-]. by right.
    + split; [split; [done | by intros H] |]. split; done.
    + split; [split; [done | by intros H] |]. split; [done |].
      intros code [= <-]. by left.
    + split; [split; [done | by intros H] |]. split; [done |].
      intros code [= <-]. by left.
    + split; [done |]. split.
      * intros _.
        exists (t1 ++ map translation_request selected
                ++ [ConsoleLog final_output_line; ConsoleLog (outputContent ts);
                    export_call ts]), (error_line e).
        split; [by rewrite <- !app_assoc |].
        by rewrite !stderr_app, Hl, Hq.
      * intros code [= <-]. by right.
Qed.

(** X4.  A run writes at most one file: nothing without the flashcards
    flag, and with it at most [flashcards.txt], written right after the
    summary of the same translations has been printed. *)
Theorem writes_at_most_one_file {S : Type} (collab : Collaborators S)
    (env : Env.t) (args : Args.t) (schedule : list nat) (w : World S) :
  (flashcards args = false ->
   written (added w (script collab env args schedule w).2) = [])
  /\ (written (added w (script collab env args schedule w).2) = []
      \/ exists translations t t',
           written (added w (script collab env args schedule w).2)
           = [("flashcards.txt", flashcardsContent translations)]
           /\ added w (script collab env args schedule w).2
              = t ++ [ConsoleLog final_output_line;
                      ConsoleLog (outputContent translations);
                      WriteFileSync "flashcards.txt"
                        (flashcardsContent translations)] ++ t'
           /\ written t = [] /\ written t' = []).
Proof.
  destruct (script_shape collab env args schedule w)
    as [(msg & _ & Hst & Hadd) | (t1 & selected & t3 & Hadd & Hev & Hend)];
    rewrite Hadd.
  - split; [done | by left].
  - destruct (translation_requests_quiet selected) as (_ & Hq & _).
    pose proof (loop_events_written _ Hev) as Hl.
    assert (written (t1 ++ map translation_request selected) = []) as Hpre.
    { by rewrite written_app, Hl, Hq. }
    rewrite app_assoc, written_app, Hpre. simpl.
    destruct Hend as [[_ (e & ->)] | [[_ ->] | (ts & [(_ & Hf & ->)
      | [(_ & Hf & ->) | (_ & Hf & e & ->)]])]]; simpl.
    + split; [done | by left].
    + split; [done | by left].
    + split; [done | by left].
    + split; [by rewrite Hf |]. right.
      exists ts, (t1 ++ map translation_request selected), [ConsoleLog generated_line].
      by rewrite <- !app_assoc.
    + split; [by rewrite Hf |]. right.
      exists ts, (t1 ++ map translation_request selected),
        [ConsoleError (error_line e)].
      by rewrite <- !app_assoc.
Qed.

Lemma writes_at_most_one_file_witness :
  written (added Sample.start
             (script Sample.happy Sample.env (Sample.args "run" false) [0]
                Sample.start).2) = [].
Proof.
  apply (proj1 (writes_at_most_one_file Sample.happy Sample.env
                  (Sample.args "run" false) [0] Sample.start)).
  reflexivity.
Defined.

Lemma exit_1_iff_stderr_witness :
  exists t msg,
    added Sample.start
      (script phrases_down Sample.env (Sample.args "run" false) [] Sample.start).2
    = t ++ [ConsoleError msg]
    /\ stderr t = [].
Proof.
  apply (proj1 (proj2 (exit_1_iff_stderr phrases_down Sample.env
                         (Sample.args "run" false) [] Sample.start))).
  reflexivity.
Defined.

(** X5.  The translation stage yields a list exactly when every request
    was fulfilled and every promise of the batch has settled; the list is
    then the fulfilled pairs in the order of the selected phrases. *)
Theorem batch_resolves_exactly {S : Type} (collab : Collaborators S)
    (selected : list Selected.t) (schedule : list nat) (w : World S)
    (out : list Pair.t) :
  (translate_all collab selected schedule w).1 = Normal out
  <-> (start_all collab selected w).1 = Fulfilled <$> out
      /\ settles_all schedule (length selected).
Proof.
  destruct (start_all_spec collab selected w) as [Hof _].
  apply Forall2_length in Hof.
  unfold translate_all, await_all.
  destruct (start_all collab selected w) as [tasks w1]. simpl in *.
  rewrite Hof, <- Promise_all_resolves_iff.
  destruct (Promise_all tasks schedule) as [vs|e|]; simpl; split;
    try discriminate; by intros [= ->].
Qed.

(** X6.  When several translations fail, the error the script reports is
    that of the rejected request whose promise settles first: if the
    settlement order is [pre ++ i :: post], request [i] is rejected with
    [e] and no request of [pre] is rejected, the script prints [e] and
    exits with status 1. *)
Theorem first_rejection_is_reported {S : Type} (collab : Collaborators S)
    (env : Env.t) (args : Args.t) (w : World S)
    (selected : list Selected.t) (w1 : World S)
    (pre : list nat) (i : nat) (post : list nat) (e : error) :
  ~ bad_configuration env args ->
  for_words collab (numPhrases args) (words args) [] w = (Normal selected, w1) ->
  (start_all collab selected w1).1 !! i = Some (Rejected e) ->
  none_rejected (start_all collab selected w1).1 pre ->
  script collab env args (pre ++ i :: post) w
  = (Exited 1%Z,
     MkWorld (backend (start_all collab selected w1).2)
       (trace (start_all collab selected w1).2
        ++ [ConsoleError ("An error occurred: " +:+ e)])).
Proof.
  intros Hok Hloop Hi Hpre.
  rewrite (script_valid collab env args _ w Hok).
  unfold run_main, main, bind. rewrite Hloop.
  unfold translate_all, await_all.
  destruct (start_all collab selected w1) as [tasks w2]. simpl in *.
  assert (Promise_all tasks (pre ++ i :: post) = RejectedWith e) as ->.
  { apply Promise_all_rejects_iff. by exists pre, i, post. }
  reflexivity.
Qed.

(** A backend that rejects a translation naming the phrase it was asked. *)
Definition echoing_failure : Collaborators unit := {|
  generateObject sc prompt s :=
    (match sc return outcome (object sc) with
     | PhrasesSchema => Fulfilled ["I run."; "They run."]
     | TranslationSchema => Rejected prompt
     | MeaningSchema => Fulfilled "to move fast"
     end, s);
  inquirer_prompt _ choices s := (Fulfilled (map value choices), s);
  fs_writeFileSync _ _ s := (Fulfilled tt, s)
|}.

Lemma first_rejection_is_reported_witness :
  (script echoing_failure Sample.env (Sample.args "run" true) ([] ++ 1 :: [0])
     Sample.start).1 = Exited 1%Z
  /\ stderr (trace (script echoing_failure Sample.env (Sample.args "run" true)
                      ([] ++ 1 :: [0]) Sample.start).2)
     = ["An error occurred: " +:+ translation_prompt "They run."].
Proof.
  rewrite (first_rejection_is_reported echoing_failure Sample.env
             (Sample.args "run" true) Sample.start
             [Selected.Build "I run." "to move fast" "run";
              Selected.Build "They run." "to move fast" "run"]
             (MkWorld tt (word_events (JS.Num 2)
                            (WordRun.Build "run" "to move fast"
                               ["I run."; "They run."] ["I run."; "They run."])))
             [] 1 [0] (translation_prompt "They run.")).
  - split; reflexivity.
  - intros [H | [H | [(z & H & Hz) | [H | H]]]]; try discriminate H.
    vm_compute in H. inversion H; subst z. lia.
  - reflexivity.
  - reflexivity.
  - intros j Hj. by apply elem_of_nil in Hj.
Defined.

(** What the operating system sees of a run.  A script that called
    [process.exit] or ran to its end has its status.  When [main()] is left
    waiting, Node ends the process with status 0 as soon as nothing keeps
    the event loop alive (no open socket, no prompt), without running the
    [catch] handler; while something does, the process stays up. *)
Definition process_exit (kept_alive : bool) (st : status) : option Z :=
  match st with
  | Exited code => Some code
  | Blocked => if kept_alive then None else Some 0%Z
  end.

(** X7.  There is no timeout on the batch: as long as no settled promise
    is rejected and some promise of the batch has not settled, [main()]
    stays at its [await]: after the translation requests nothing is
    printed, nothing goes to standard error and no file is written, so the
    summary never appears; the process then stays up while something
    keeps the event loop alive, and otherwise ends with status 0. *)
Theorem pending_batch_prints_nothing {S : Type} (collab : Collaborators S)
    (env : Env.t) (args : Args.t) (schedule : list nat) (w : World S)
    (selected : list Selected.t) (w1 : World S) (i : nat) :
  ~ bad_configuration env args ->
  for_words collab (numPhrases args) (words args) [] w = (Normal selected, w1) ->
  none_rejected (start_all collab selected w1).1 schedule ->
  i < length selected -> i ∉ schedule ->
  script collab env args schedule w = (Blocked, (start_all collab selected w1).2)
  /\ trace (script collab env args schedule w).2
     = trace w1 ++ map translation_request selected
  /\ stdout (trace (script collab env args schedule w).2) = stdout (trace w1)
  /\ stderr (trace (script collab env args schedule w).2) = stderr (trace w)
  /\ written (trace (script collab env args schedule w).2) = written (trace w)
  /\ process_exit true (script collab env args schedule w).1 = None
  /\ process_exit false (script collab env args schedule w).1 = Some 0%Z.
Proof.
  intros Hok Hloop Hnone Hi Hni.
  destruct (start_all_spec collab selected w1) as [Hof Ht].
  apply Forall2_length in Hof.
  assert (script collab env args schedule w
          = (Blocked, (start_all collab selected w1).2)) as Hrun.
  { rewrite (script_valid collab env args _ w Hok).
    unfold run_main, main, bind. rewrite Hloop.
    unfold translate_all, await_all.
    destruct (start_all collab selected w1) as [tasks w2]. simpl in *.
    assert (Promise_all tasks schedule = StillPending) as ->.
    { apply Promise_all_pending_iff. split; [done |]. exists i.
      split; [by rewrite <- Hof | done]. }
    reflexivity. }
  destruct (for_words_grows collab (numPhrases args) (words args) [] w)
    as (t1 & Ht1 & Hev & _).
  rewrite Hloop in Ht1. simpl in Ht1.
  destruct (translation_requests_quiet selected) as (Hq1 & Hq2 & Hq3).
  rewrite Hrun. simpl. rewrite Ht.
  split; [done |]. split; [done |].
  split; [by rewrite stdout_app, Hq3, app_nil_r |].
  split.
  { by rewrite stderr_app, Hq1, Ht1, stderr_app, (loop_events_stderr _ Hev),
      !app_nil_r. }
  split; [| done].
  by rewrite written_app, Hq2, Ht1, written_app, (loop_events_written _ Hev),
    !app_nil_r.
Qed.

Lemma pending_batch_prints_nothing_witness :
  process_exit false
    (script Sample.happy Sample.env (Sample.args "run,jump" true) [1]
       Sample.start).1 = Some 0%Z.
Proof.
  refine (proj2 (proj2 (proj2 (proj2 (proj2 (proj2
           (pending_batch_prints_nothing Sample.happy Sample.env
              (Sample.args "run,jump" true) [1] Sample.start
              [Selected.Build "I run." "to move fast" "run";
               Selected.Build "I run." "to move fast" "jump"]
              (MkWorld tt
                 (word_events (JS.Num 2)
                    (WordRun.Build "run" "to move fast"
                       ["I run."; "They run."] ["I run."])
                  ++ word_events (JS.Num 2)
                       (WordRun.Build "jump" "to move fast"
                          ["I run."; "They run."] ["I run."])))
              0 _ _ _ _ _))))))).
  - intros [H | [H | [(z & H & Hz) | [H | H]]]]; try discriminate H.
    vm_compute in H. inversion H; subst z. lia.
  - reflexivity.
  - intros j Hj e. apply list_elem_of_singleton in Hj as ->. discriminate.
  - simpl. lia.
  - intros Hin. apply list_elem_of_singleton in Hin. discriminate.
Defined.

(** X8.  Once the loop has completed, one translation request per selected
    phrase goes out, in the order of the selection, before any answer is
    awaited: the requests are in the trace whatever the answers are and
    whatever the order in which they arrive, also when the batch fails or
    never completes. *)
Theorem translation_requests_all_issued {S : Type} (collab : Collaborators S)
    (env : Env.t) (args : Args.t) (schedule : list nat) (w : World S)
    (selected : list Selected.t) (w1 : World S) :
  ~ bad_configuration env args ->
  for_words collab (numPhrases args) (words args) [] w = (Normal selected, w1) ->
  generate_calls TranslationSchema (trace (script collab env args schedule w).2)
  = generate_calls TranslationSchema (trace w)
    ++ map (fun p => translation_prompt (Selected.phrase p)) selected.
Proof.
  intros Hok Hloop. rewrite (script_valid collab env args _ w Hok).
  destruct (run_main_after_loop collab _ _ (flashcards args) schedule _ _ _ Hloop)
    as (t3 & -> & Hout).
  destruct (for_words_grows collab (numPhrases args) (words args) [] w)
    as (t1 & Ht1 & Hev & _).
  rewrite Hloop in Ht1. simpl in Ht1.
  rewrite Ht1, !generate_calls_app, (loop_events_translation _ Hev).
  destruct (translation_requests_calls selected) as (_ & _ & -> & _).
  destruct (outputs_calls t3 Hout) as [-> _]. by rewrite !app_nil_r.
Qed.

Lemma translation_requests_all_issued_witness :
  generate_calls TranslationSchema
    (trace (script echoing_failure Sample.env (Sample.args "run" true) []
              Sample.start).2)
  = generate_calls TranslationSchema (trace Sample.start)
    ++ map (fun p => translation_prompt (Selected.phrase p))
         [Selected.Build "I run." "to move fast" "run";
          Selected.Build "They run." "to move fast" "run"].
Proof.
  refine (translation_requests_all_issued echoing_failure Sample.env
            (Sample.args "run" true) [] Sample.start
            [Selected.Build "I run." "to move fast" "run";
             Selected.Build "They run." "to move fast" "run"]
            (MkWorld tt (word_events (JS.Num 2)
                           (WordRun.Build "run" "to move fast"
                              ["I run."; "They run."] ["I run."; "They run."])))
            _ _).
  - intros [H | [H | [(z & H & Hz) | [H | H]]]]; try discriminate H.
    vm_compute in H. inversion H; subst z. lia.
  - reflexivity.
Defined.

Lemma translate_all_resolved {S : Type} (collab : Collaborators S)
    (selected : list Selected.t) (schedule : list nat) (w : World S)
    (translations : list Pair.t) :
  (start_all collab selected w).1 = Fulfilled <$> translations ->
  settles_all schedule (length selected) ->
  translate_all collab selected schedule w
  = (Normal translations, (start_all collab selected w).2).
Proof.
  intros Htasks Hsch.
  destruct (start_all_spec collab selected w) as [Hof _].
  apply Forall2_length in Hof. unfold translate_all, await_all.
  destruct (start_all collab selected w) as [tasks w2]. simpl in *. subst tasks.
  rewrite Promise_all_complete; [done |].
  rewrite length_fmap in Hof. by rewrite <- Hof.
Qed.

(** X9.  A run in which nothing fails exits with status 0, and what it
    adds after the loop is, in this order: the translation requests, the
    line [Final Output:], the summary, and with the flashcards flag the
    file write followed by the line saying the file has been generated. *)
Theorem successful_run {S : Type} (collab : Collaborators S)
    (env : Env.t) (args : Args.t) (schedule : list nat) (w : World S)
    (selected : list Selected.t) (w1 : World S) (translations : list Pair.t) :
  ~ bad_configuration env args ->
  for_words collab (numPhrases args) (words args) [] w = (Normal selected, w1) ->
  (start_all collab selected w1).1 = Fulfilled <$> translations ->
  settles_all schedule (length selected) ->
  (flashcards args = true ->
   (fs_writeFileSync collab "flashcards.txt" (flashcardsContent translations)
      (backend (start_all collab selected w1).2)).1 = Fulfilled tt) ->
  (script collab env args schedule w).1 = Exited 0%Z
  /\ trace (script collab env args schedule w).2
     = trace w1 ++ map translation_request selected
       ++ [ConsoleLog final_output_line; ConsoleLog (outputContent translations)]
       ++ (if flashcards args
           then [export_call translations; ConsoleLog generated_line]
           else []).
Proof.
  intros Hok Hloop Htasks Hsch Hwrite.
  rewrite (script_valid collab env args _ w Hok).
  unfold run_main, main, bind.
  rewrite Hloop, (translate_all_resolved collab _ _ _ _ Htasks Hsch), report_result.
  destruct (start_all_spec collab selected w1) as [_ Ht].
  destruct (flashcards args).
  - specialize (Hwrite eq_refl).
    destruct (fs_writeFileSync collab _ _ _) as [[u|e] s']; simpl in Hwrite;
      [| discriminate].
    simpl. split; [done |]. by rewrite Ht, <- !app_assoc.
  - simpl. split; [done |]. by rewrite Ht, <- !app_assoc.
Qed.

Lemma successful_run_witness :
  (script Sample.happy Sample.env (Sample.args "run" true) [0] Sample.start).1
  = Exited 0%Z.
Proof.
  refine (proj1 (successful_run Sample.happy Sample.env (Sample.args "run" true)
                   [0] Sample.start
                   [Selected.Build "I run." "to move fast" "run"]
                   (MkWorld tt (word_events (JS.Num 2)
                                  (WordRun.Build "run" "to move fast"
                                     ["I run."; "They run."] ["I run."])))
                   [Pair.Build "I run." "Eu corro." "to move fast" "run"]
                   _ _ _ _ _)).
  - intros [H | [H | [(z & H & Hz) | [H | H]]]]; try discriminate H.
    vm_compute in H. inversion H; subst z. lia.
  - reflexivity.
  - reflexivity.
  - intros i Hi. simpl in Hi. apply list_elem_of_In. simpl.
    destruct i as [|i]; [auto | lia].
  - intros _. reflexivity.
Defined.

(** X10.  When writing the file throws, the script reports the error and
    exits with status 1; the summary printed before stays, and the line
    saying that the file has been generated is not printed. *)
Theorem write_failure_after_summary {S : Type} (collab : Collaborators S)
    (env : Env.t) (args : Args.t) (schedule : list nat) (w : World S)
    (selected : list Selected.t) (w1 : World S) (translations : list Pair.t)
    (e : error) :
  ~ bad_configuration env args ->
  flashcards args = true ->
  for_words collab (numPhrases args) (words args) [] w = (Normal selected, w1) ->
  (start_all collab selected w1).1 = Fulfilled <$> translations ->
  settles_all schedule (length selected) ->
  (fs_writeFileSync collab "flashcards.txt" (flashcardsContent translations)
     (backend (start_all collab selected w1).2)).1 = Rejected e ->
  (script collab env args schedule w).1 = Exited 1%Z
  /\ stdout (trace (script collab env args schedule w).2)
     = stdout (trace w1) ++ [final_output_line; outputContent translations]
  /\ stderr (trace (script collab env args schedule w).2)
     = stderr (trace w1) ++ ["An error occurred: " +:+ e].
Proof.
  intros Hok Hflag Hloop Htasks Hsch Hwrite.
  rewrite (script_valid collab env args _ w Hok).
  unfold run_main, main, bind.
  rewrite Hloop, (translate_all_resolved collab _ _ _ _ Htasks Hsch), report_result,
    Hflag.
  destruct (start_all_spec collab selected w1) as [_ Ht].
  destruct (translation_requests_quiet selected) as (Hq1 & _ & Hq3).
  destruct (fs_writeFileSync collab _ _ _) as [[u|e'] s']; simpl in Hwrite;
    [discriminate |].
  injection Hwrite as ->. simpl. split; [done |].
  rewrite Ht. split.
  - rewrite !stdout_app, Hq3. simpl. by rewrite !app_nil_r.
  - rewrite !stderr_app, Hq1. simpl. by rewrite !app_nil_r.
Qed.

(** A disk that refuses every write. *)
Definition disk_full : Collaborators unit := {|
  generateObject sc prompt s :=
    (match sc return outcome (object sc) with
     | PhrasesSchema => Fulfilled ["I run."; "They run."]
     | TranslationSchema => Fulfilled "Eu corro."
     | MeaningSchema => Fulfilled "to move fast"
     end, s);
  inquirer_prompt _ choices s := (Fulfilled (Sample.first_choice choices), s);
  fs_writeFileSync _ _ s := (Rejected "ENOSPC", s)
|}.

Lemma write_failure_after_summary_witness :
  (script disk_full Sample.env (Sample.args "run" true) [0] Sample.start).1
  = Exited 1%Z.
Proof.
  refine (proj1 (write_failure_after_summary disk_full Sample.env
                   (Sample.args "run" true) [0] Sample.start
                   [Selected.Build "I run." "to move fast" "run"]
                   (MkWorld tt (word_events (JS.Num 2)
                                  (WordRun.Build "run" "to move fast"
                                     ["I run."; "They run."] ["I run."])))
                   [Pair.Build "I run." "Eu corro." "to move fast" "run"]
                   "ENOSPC" _ _ _ _ _ _)).
  - intros [H | [H | [(z & H & Hz) | [H | H]]]]; try discriminate H.
    vm_compute in H. inversion H; subst z. lia.
  - reflexivity.
  - reflexivity.
  - reflexivity.
  - intros i Hi. simpl in Hi. apply list_elem_of_In. simpl.
    destruct i as [|i]; [auto | lia].
  - reflexivity.
Defined.

(** X11.  When nothing is ticked for any word, no translation request is
    made and the empty batch resolves at once, so the run cannot wait on
    it: without the flag it prints [Final Output:] and an empty summary and
    exits with status 0; with the flag the file it writes holds the three
    header lines only. *)
Theorem nothing_selected {S : Type} (collab : Collaborators S)
    (env : Env.t) (args : Args.t) (schedule : list nat) (w w1 : World S) :
  ~ bad_configuration env args ->
  for_words collab (numPhrases args) (words args) [] w = (Normal [], w1) ->
  generate_calls TranslationSchema (trace (script collab env args schedule w).2)
  = generate_calls TranslationSchema (trace w)
  /\ (flashcards args = false ->
      script collab env args schedule w
      = (Exited 0%Z,
         MkWorld (backend w1)
           (trace w1 ++ [ConsoleLog final_output_line; ConsoleLog ""])))
  /\ (flashcards args = true ->
      written (trace (script collab env args schedule w).2)
      = written (trace w)
        ++ [("flashcards.txt",
             "#separator:tab" +:+ nl +:+ "#html:true" +:+ nl +:+ "#tags column:3")]).
Proof.
  intros Hok Hloop.
  destruct (for_words_grows collab (numPhrases args) (words args) [] w)
    as (t1 & Ht1 & Hev & _).
  rewrite Hloop in Ht1. simpl in Ht1.
  rewrite (script_valid collab env args _ w Hok).
  unfold run_main, main, bind. rewrite Hloop.
  change (translate_all collab [] schedule w1) with (@Normal (list Pair.t) [], w1).
  cbv iota beta. rewrite report_result. split; [| split].
  - destruct (flashcards args).
    + destruct (fs_writeFileSync collab _ _ _) as [[u|e] s']; simpl;
        rewrite Ht1, !generate_calls_app, (loop_events_translation _ Hev); simpl;
        by rewrite ?app_nil_r.
    + simpl. rewrite Ht1, !generate_calls_app, (loop_events_translation _ Hev).
      simpl. by rewrite ?app_nil_r.
  - by intros ->.
  - intros ->.
    destruct (fs_writeFileSync collab _ _ _) as [[u|e] s']; simpl;
      rewrite Ht1, !written_app, (loop_events_written _ Hev); simpl;
      by rewrite ?app_nil_r.
Qed.

Lemma nothing_selected_witness :
  script nothing_ticked Sample.env (Sample.args "run" false) [] Sample.start
  = (Exited 0%Z,
     MkWorld tt
       (word_events (JS.Num 2)
          (WordRun.Build "run" "to move fast" ["I run."; "They run."] [])
        ++ [ConsoleLog final_output_line; ConsoleLog ""])).
Proof.
  refine (proj1 (proj2 (nothing_selected nothing_ticked Sample.env
                          (Sample.args "run" false) [] Sample.start
                          (MkWorld tt (word_events (JS.Num 2)
                                         (WordRun.Build "run" "to move fast"
                                            ["I run."; "They run."] [])))
                          _ _)) _).
  - intros [H | [H | [(z & H & Hz) | [H | H]]]]; try discriminate H.
    vm_compute in H. inversion H; subst z. lia.
  - reflexivity.
  - reflexivity.
Defined.

(** ** The word list and the [-w] argument *)

Lemma split_comma_free sep s :
  Forall (fun x => contains sep x = false) (JS.split sep s).
Proof.
  induction s as [|c s IH]; simpl; [by repeat constructor |].
  destruct (Ascii.eqb c sep) eqn:Hc; [by constructor |].
  destruct (JS.split sep s) as [|seg segs].
  { constructor; [simpl; by rewrite Hc | constructor]. }
  apply Forall_cons in IH as [Hseg Hsegs]. constructor; [| done].
  simpl. by rewrite Hc, Hseg.
Qed.

Lemma join_split sep s :
  JS.join (String sep EmptyString) (JS.split sep s) = s.
Proof.
  induction s as [|c s IH]; [done |]. simpl JS.split.
  destruct (Ascii.eqb c sep) eqn:Hc.
  - apply Ascii.eqb_eq in Hc as ->.
    pose proof (split_not_nil sep s) as Hne.
    destruct (JS.split sep s) as [|seg segs]; [done |].
    change (JS.join (String sep "") ("" :: seg :: segs))
      with (String sep (JS.join (String sep "") (seg :: segs))).
    by rewrite IH.
  - destruct (JS.split sep s) as [|seg segs] eqn:Hs.
    + by destruct (split_not_nil sep s).
    + destruct segs as [|seg' segs].
      * simpl in *. by rewrite IH.
      * change (JS.join (String sep "") (String c seg :: seg' :: segs))
          with (String c (JS.join (String sep "") (seg :: seg' :: segs))).
        by rewrite IH.
Qed.

(** X12.  Splitting [-w] loses nothing and leaves no comma behind: for a
    non-empty argument, no word holds a comma, the words joined by commas
    give the argument back, and there is at least one word. *)
Theorem words_rejoin (args : Args.t) (s : string) :
  Args.w args = Some s -> s <> "" ->
  Forall (fun word => contains "," word = false) (words args)
  /\ JS.join "," (words args) = s
  /\ words args <> [].
Proof.
  intros Hw Hs. unfold words. rewrite Hw.
  destruct s as [|c s]; [done |]. cbn [JS.truthy].
  split; [apply split_comma_free |]. split; [apply join_split |].
  apply split_not_nil.
Qed.

Lemma words_rejoin_witness :
  JS.join "," (words (Sample.args "run,,jump" false)) = "run,,jump".
Proof.
  apply (proj1 (proj2 (words_rejoin (Sample.args "run,,jump" false) "run,,jump"
                         eq_refl ltac:(discriminate)))).
Defined.

(** ** Columns of a data line *)

Definition tab_char : ascii := ascii_of_nat 9.

Lemma string_app_assoc (a b c : string) : (a +:+ b) +:+ c = a +:+ (b +:+ c).
Proof.
  induction a as [|x a IH]; [done |].
  change (String x ((a +:+ b) +:+ c) = String x (a +:+ (b +:+ c))).
  by rewrite IH.
Qed.

(** The first column of a data line: the phrase and the highlighted word
    between double quotes. *)
Definition front_column (pr : Pair.t) : string :=
  dq +:+ Pair.english pr +:+ " <b><span style=" +:+ dq
  +:+ "color: rgb(0, 0, 255);" +:+ dq +:+ ">" +:+ Pair.word pr
  +:+ "</span></b>" +:+ dq.

Lemma flashcard_line_columns pr :
  flashcard_line pr = front_column pr +:+ String tab_char (Pair.meaning pr).
Proof.
  unfold flashcard_line, front_column, tab.
  by rewrite !string_app_assoc.
Qed.

(** X13.  A data line of the export has exactly two tab-separated
    columns, the quoted phrase with the highlighted word and the meaning,
    whenever the phrase, the word and the meaning hold no tab; the header
    announces tags in column 3, which no data line has. *)
Theorem data_line_has_two_columns (pr : Pair.t) :
  contains tab_char (Pair.english pr) = false ->
  contains tab_char (Pair.word pr) = false ->
  contains tab_char (Pair.meaning pr) = false ->
  JS.split tab_char (flashcard_line pr) = [front_column pr; Pair.meaning pr]
  /\ nth 2 (flashcard_lines [pr]) "" = "#tags column:3".
Proof.
  intros He Hw Hm. split; [| reflexivity].
  rewrite flashcard_line_columns, split_segment.
  - by rewrite (split_without _ _ Hm).
  - unfold front_column. rewrite !contains_app, He, Hw. reflexivity.
Qed.

Lemma data_line_has_two_columns_witness :
  JS.split tab_char
    (flashcard_line (Pair.Build "I run." "Eu corro." "to move fast" "run"))
  = [front_column (Pair.Build "I run." "Eu corro." "to move fast" "run");
     "to move fast"].
Proof.
  apply (proj1 (data_line_has_two_columns
                  (Pair.Build "I run." "Eu corro." "to move fast" "run")
                  eq_refl eq_refl eq_refl)).
Defined.

(** ** Reading the count *)

Lemma digit_range c d : JS.digit c = Some d -> (0 <= d <= 9)%Z.
Proof.
  unfold JS.digit. destruct (_ && _)%bool eqn:H; [| discriminate].
  intros [= <-]. apply andb_prop in H as [H1 H2]. lia.
Qed.

Lemma leading_digits_range s : Forall (fun d => (0 <= d <= 9)%Z) (JS.leading_digits s).
Proof.
  induction s as [|c s IH]; simpl; [constructor |].
  destruct (JS.digit c) as [d|] eqn:Hd; [| constructor].
  constructor; [by eapply digit_range | done].
Qed.

Lemma fold_digits_nonneg ds acc :
  Forall (fun d => (0 <= d <= 9)%Z) ds -> (0 <= acc)%Z ->
  (0 <= fold_left (fun a d => 10 * a + d) ds acc)%Z.
Proof.
  intros Hds. revert acc. induction Hds as [|d ds Hd _ IH]; intros acc Hacc;
    simpl; [done |]. apply IH. lia.
Qed.

(** X14.  A count that starts with a minus sign (after optional white
    space) never passes the check: [numPhrases] is then [NaN] or at most
    0. *)
Theorem negative_count_rejected (args : Args.t) (s rest : string) :
  Args.n args = Some s ->
  JS.trimStart s = String "-" rest ->
  JS.isNaN (numPhrases args) || JS.le0 (numPhrases args) = true.
Proof.
  intros Hn Htrim. unfold numPhrases. rewrite Hn.
  destruct s as [|c s]; [discriminate |]. cbn [JS.truthy].
  unfold JS.parseInt10. rewrite Htrim.
  change (JS.code "-" =? 45)%Z with true. cbv iota beta.
  pose proof (leading_digits_range rest) as Hds.
  destruct (JS.leading_digits rest) as [|d ds]; [done |]. simpl.
  pose proof (fold_digits_nonneg (d :: ds) 0 Hds ltac:(lia)) as Hv.
  unfold JS.digits_value. apply Z.leb_le. simpl in Hv |- *. lia.
Qed.

Lemma negative_count_rejected_witness :
  JS.isNaN (numPhrases (Args.Build (Some "run") (Some " -3") false))
  || JS.le0 (numPhrases (Args.Build (Some "run") (Some " -3") false)) = true.
Proof.
  apply (negative_count_rejected (Args.Build (Some "run") (Some " -3") false)
           " -3" "3" eq_refl eq_refl).
Defined.

(** *** Decimal numerals are read back as written *)

Fixpoint digits_only (s : string) : bool :=
  match s with
  | EmptyString => true
  | String c rest =>
      match JS.digit c with
      | Some _ => digits_only rest
      | None => false
      end
  end.

Definition numeral_value (s : string) : Z :=
  JS.digits_value (JS.leading_digits s).

Lemma fold_digits_shift ds acc :
  fold_left (fun a d => 10 * a + d)%Z ds acc
  = (acc * 10 ^ Z.of_nat (length ds)
     + fold_left (fun a d => 10 * a + d)%Z ds 0)%Z.
Proof.
  revert acc. induction ds as [|d ds IH]; intros acc.
  - simpl. lia.
  - cbn [fold_left length]. rewrite (IH (10 * acc + d)%Z), (IH (10 * 0 + d)%Z).
    rewrite Nat2Z.inj_succ, Z.pow_succ_r by lia. lia.
Qed.

Lemma leading_digits_all s :
  digits_only s = true -> length (JS.leading_digits s) = String.length s.
Proof.
  induction s as [|c s IH]; simpl; [done |].
  destruct (JS.digit c); [| discriminate]. intros H. simpl. by rewrite IH.
Qed.

Lemma numeral_value_cons c d s :
  JS.digit c = Some d -> digits_only s = true ->
  numeral_value (String c s)
  = (d * 10 ^ Z.of_nat (String.length s) + numeral_value s)%Z.
Proof.
  intros Hd Hs. unfold numeral_value, JS.digits_value. simpl. rewrite Hd.
  cbn [fold_left]. rewrite fold_digits_shift, (leading_digits_all _ Hs). lia.
Qed.

Lemma digit_of_pretty_char (m : N) :
  (m < 10)%N -> JS.digit (pretty_N_char m) = Some (Z.of_N m).
Proof.
  intros Hm.
  assert (m = 0 \/ m = 1 \/ m = 2 \/ m = 3 \/ m = 4 \/ m = 5 \/ m = 6 \/ m = 7
          \/ m = 8 \/ m = 9)%N as H by lia.
  repeat (destruct H as [-> | H]; [reflexivity |]). by subst.
Qed.

Lemma pretty_N_go_numeral (x : N) (s : string) :
  digits_only s = true ->
  digits_only (pretty_N_go x s) = true
  /\ numeral_value (pretty_N_go x s)
     = (Z.of_N x * 10 ^ Z.of_nat (String.length s) + numeral_value s)%Z.
Proof.
  revert s. induction (N.lt_wf_0 x) as [x _ IH]; intros s Hs.
  destruct (decide (x = 0%N)) as [-> | Hx].
  - rewrite pretty_N_go_0. split; [done | lia].
  - rewrite pretty_N_go_step by lia.
    assert (JS.digit (pretty_N_char (x `mod` 10)) = Some (Z.of_N (x `mod` 10)))
      as Hd.
    { apply digit_of_pretty_char. by apply N.mod_lt. }
    assert (digits_only (String (pretty_N_char (x `mod` 10)) s) = true) as Hs'.
    { simpl. by rewrite Hd. }
    destruct (IH (x `div` 10)%N ltac:(apply N.div_lt; lia) _ Hs') as [H1 H2].
    split; [exact H1 |].
    rewrite H2, (numeral_value_cons _ _ _ Hd Hs).
    cbn [String.length]. rewrite Nat2Z.inj_succ, Z.pow_succ_r by lia.
    rewrite N2Z.inj_mod, N2Z.inj_div.
    pose proof (Z.div_mod (Z.of_N x) 10 ltac:(lia)) as Hdm.
    change (Z.of_N 10) with 10%Z. nia.
Qed.

Lemma pretty_N_go_head (x : N) (s : string) :
  (0 < x)%N ->
  exists c rest, pretty_N_go x s = String c rest /\ JS.digit c <> None.
Proof.
  revert s. induction (N.lt_wf_0 x) as [x _ IH]; intros s Hx.
  rewrite pretty_N_go_step by done.
  destruct (decide (x `div` 10 = 0)%N) as [Hq | Hq].
  - rewrite Hq, pretty_N_go_0. eexists _, _. split; [done |].
    rewrite digit_of_pretty_char; [done | by apply N.mod_lt].
  - apply IH; [apply N.div_lt; lia |].
    revert Hq. generalize (x `div` 10)%N. intros q Hq. lia.
Qed.

Lemma trimStart_digit c rest :
  JS.digit c <> None -> JS.trimStart (String c rest) = String c rest.
Proof.
  unfold JS.digit. destruct (_ && _)%bool eqn:H; [| done]. intros _.
  apply andb_prop in H as [H1 H2].
  assert (JS.space1 c = false) as Hs1.
  { unfold JS.space1. cbv zeta. apply orb_false_intro;
      [apply andb_false_intro2 | ]; lia. }
  assert (forall c2, JS.space2 c c2 = false) as Hs2.
  { intros c2. unfold JS.space2. apply andb_false_intro1. lia. }
  assert (forall c2 c3, JS.space3 c c2 c3 = false) as Hs3.
  { intros c2 c3. unfold JS.space3. cbv zeta.
    assert ((JS.code c =? 225)%Z = false) as -> by lia.
    assert ((JS.code c =? 226)%Z = false) as -> by lia.
    assert ((JS.code c =? 227)%Z = false) as -> by lia.
    assert ((JS.code c =? 239)%Z = false) as -> by lia.
    reflexivity. }
  simpl. rewrite Hs1. destruct rest as [|c2 [|c3 r]]; [done | | ].
  - by rewrite Hs2.
  - by rewrite Hs2, Hs3.
Qed.

Lemma parseInt10_positive (p : positive) :
  JS.parseInt10 (pretty (Zpos p)) = JS.Num (Zpos p).
Proof.
  change (pretty (Zpos p)) with (pretty_N_go (Npos p) "").
  destruct (pretty_N_go_head (Npos p) "" ltac:(lia)) as (c & rest & Heq & Hc).
  destruct (pretty_N_go_numeral (Npos p) "" eq_refl) as [_ Hval].
  rewrite Heq in Hval |- *. unfold JS.parseInt10.
  rewrite (trimStart_digit _ _ Hc).
  assert ((JS.code c =? 45)%Z = false /\ (JS.code c =? 43)%Z = false) as [-> ->].
  { unfold JS.digit in Hc. destruct (_ && _)%bool eqn:H; [| done].
    apply andb_prop in H as [H1 H2]. split; lia. }
  unfold numeral_value in Hval.
  destruct (JS.leading_digits (String c rest)) as [|d ds] eqn:Hds.
  - simpl in Hds. by destruct (JS.digit c).
  - rewrite Hval. f_equal. change (JS.leading_digits "") with (@nil Z).
    change (JS.digits_value []) with 0%Z. simpl. lia.
Qed.

Lemma parseInt10_negative (p : positive) :
  JS.parseInt10 (pretty (Zneg p)) = JS.Num (Zneg p).
Proof.
  change (pretty (Zneg p)) with (String "-" (pretty_N_go (Npos p) "")).
  destruct (pretty_N_go_head (Npos p) "" ltac:(lia)) as (c & rest & Heq & Hc).
  destruct (pretty_N_go_numeral (Npos p) "" eq_refl) as [_ Hval].
  rewrite Heq in Hval |- *. unfold JS.parseInt10.
  assert (JS.trimStart (String "-" (String c rest)) = String "-" (String c rest))
    as ->.
  { destruct rest as [|c3 r]; reflexivity. }
  change (JS.code "-" =? 45)%Z with true. cbv iota beta.
  unfold numeral_value in Hval.
  destruct (JS.leading_digits (String c rest)) as [|d ds] eqn:Hds.
  - simpl in Hds. by destruct (JS.digit c).
  - rewrite Hval. f_equal. change (JS.leading_digits "") with (@nil Z).
    change (JS.digits_value []) with 0%Z. simpl. lia.
Qed.

Lemma parseInt10_pretty (z : Z) : JS.parseInt10 (pretty z) = JS.Num z.
Proof.
  destruct z as [|p|p];
    [reflexivity | apply parseInt10_positive | apply parseInt10_negative].
Qed.

Lemma pretty_Z_not_empty (z : Z) : pretty z <> "".
Proof.
  destruct z as [|p|p]; [done | | done].
  change (pretty (Zpos p)) with (pretty_N_go (Npos p) "").
  destruct (pretty_N_go_head (Npos p) "" ltac:(lia)) as (c & rest & -> & _).
  done.
Qed.

(** X15.  An integer of magnitude below 2^53 (which a double holds
    exactly) given to [-n] in plain decimal is read back as that integer,
    the phrase prompt then starts with [Generate], a space and the numeral
    that was given, and the count passes the check exactly when it is
    positive. *)
Theorem decimal_count_read_back (args : Args.t) (z : Z) (word : string) :
  (Z.abs z < 2 ^ 53)%Z ->
  Args.n args = Some (pretty z) ->
  numPhrases args = JS.Num z
  /\ phrases_prompt word (numPhrases args)
     = "Generate " +:+ pretty z
       +:+ " natural, contextually relevant phrases that native English speakers might use in daily life, incorporating the word "
       +:+ dq +:+ word +:+ dq +:+ " in a meaningful way."
  /\ (JS.isNaN (numPhrases args) || JS.le0 (numPhrases args) = false
      <-> (0 < z)%Z).
Proof.
  intros _ Hn.
  assert (numPhrases args = JS.Num z) as ->.
  { unfold numPhrases. rewrite Hn. pose proof (pretty_Z_not_empty z) as Hne.
    destruct (pretty z) as [|c s] eqn:Hp; [done |]. cbn [JS.truthy].
    rewrite <- Hp. apply parseInt10_pretty. }
  split; [done |]. split; [done |]. simpl. rewrite Z.leb_gt. done.
Qed.

Lemma decimal_count_read_back_witness :
  numPhrases (Args.Build (Some "run") (Some (pretty 12%Z)) false) = JS.Num 12.
Proof.
  apply (proj1 (decimal_count_read_back
                  (Args.Build (Some "run") (Some (pretty 12%Z)) false) 12%Z
                  "run" ltac:(vm_compute; reflexivity) eq_refl)).
Defined.

(** ** The order of the checks *)

(** X16.  The checks run in a fixed order and the first that fails decides
    the message: a missing DeepSeek credential is reported whatever the
    arguments are; with a credential, an empty word list is reported
    whatever the count is; the count is only reported for a non-empty word
    list.  The OpenAI credential plays no part in the outcome. *)
Theorem checks_in_order {S : Type} (collab : Collaborators S)
    (env : Env.t) (args : Args.t) (schedule : list nat) (w : World S) :
  (credential_absent env ->
   script collab env args schedule w
   = (Exited 1%Z,
      MkWorld (backend w)
        (trace w ++ [ConsoleError
                       "Please set the DEEPSEEK_API_KEY environment variable."])))
  /\ (~ credential_absent env -> words args = [] ->
      script collab env args schedule w
      = (Exited 1%Z,
         MkWorld (backend w) (trace w ++ [ConsoleError no_words_message])))
  /\ (~ credential_absent env -> words args <> [] ->
      JS.isNaN (numPhrases args) || JS.le0 (numPhrases args) = true ->
      script collab env args schedule w
      = (Exited 1%Z,
         MkWorld (backend w) (trace w ++ [ConsoleError bad_count_message])))
  /\ (forall key,
        script collab
          (Env.Build key (Env.DEEPSEEK_API_KEY env)) args schedule w
        = script collab env args schedule w).
Proof.
  pose proof (credential_missing_absent env) as Hcred.
  split; [| split; [| split]].
  - intros Habs. apply Hcred in Habs. unfold script. by rewrite Habs.
  - intros Hpres Hwords. unfold script.
    destruct (credential_missing env); [exfalso; by apply Hpres, Hcred |].
    by rewrite Hwords.
  - intros Hpres Hwords Hcount. unfold script.
    destruct (credential_missing env); [exfalso; by apply Hpres, Hcred |].
    destruct (words args) as [|word rest]; [done |]. simpl length.
    cbn [Nat.eqb]. by rewrite Hcount.
  - intros key. unfold script.
    assert (credential_missing (Env.Build key (Env.DEEPSEEK_API_KEY env))
            = credential_missing env) as -> by reflexivity.
    done.
Qed.

Lemma checks_in_order_witness :
  script Sample.happy (Env.Build (Some "sk-openai") None)
    (Args.Build None (Some "0") false) [] Sample.start
  = (Exited 1%Z,
     MkWorld tt
       [ConsoleError "Please set the DEEPSEEK_API_KEY environment variable."]).
Proof.
  apply (proj1 (checks_in_order Sample.happy (Env.Build (Some "sk-openai") None)
                  (Args.Build None (Some "0") false) [] Sample.start)).
  left. reflexivity.
Defined.

(** *** Text after the numeral *)

(** [s] is empty or starts with a character that is not a decimal digit. *)
Definition no_digit_ahead (s : string) : Prop :=
  match s with
  | EmptyString => True
  | String c _ => JS.digit c = None
  end.

Lemma leading_digits_app s junk :
  digits_only s = true -> no_digit_ahead junk ->
  JS.leading_digits (s +:+ junk) = JS.leading_digits s.
Proof.
  intros Hs Hjunk. induction s as [|c s IH].
  - destruct junk as [|c junk]; [done |]. simpl in *. by rewrite Hjunk.
  - change (String c s +:+ junk) with (String c (s +:+ junk)). simpl in *.
    destruct (JS.digit c); [| discriminate]. by rewrite IH.
Qed.

Lemma parseInt10_pretty_then (z : Z) (junk : string) :
  no_digit_ahead junk -> JS.parseInt10 (pretty z +:+ junk) = JS.parseInt10 (pretty z).
Proof.
  intros Hjunk.
  assert (forall p : positive,
            exists c rest,
              pretty_N_go (Npos p) "" = String c rest
              /\ JS.digit c <> None
              /\ JS.leading_digits (String c rest +:+ junk)
                 = JS.leading_digits (String c rest)) as Hpos.
  { intros p.
    destruct (pretty_N_go_head (Npos p) "" ltac:(lia)) as (c & rest & Heq & Hc).
    destruct (pretty_N_go_numeral (Npos p) "" eq_refl) as [Hd _].
    rewrite Heq in Hd. exists c, rest. split; [done |]. split; [done |].
    by apply leading_digits_app. }
  destruct z as [|p|p].
  - change (pretty 0%Z) with "0". unfold JS.parseInt10.
    change ("0" +:+ junk) with (String "0" junk).
    rewrite (trimStart_digit "0" junk ltac:(discriminate)).
    change (JS.code "0" =? 45)%Z with false. change (JS.code "0" =? 43)%Z with false.
    cbv iota beta.
    pose proof (leading_digits_app "0" junk eq_refl Hjunk) as H0.
    change ("0" +:+ junk) with (String "0" junk) in H0. by rewrite H0.
  - change (pretty (Zpos p)) with (pretty_N_go (Npos p) "").
    destruct (Hpos p) as (c & rest & -> & Hc & Hld).
    unfold JS.parseInt10.
    change (String c rest +:+ junk) with (String c (rest +:+ junk)) in Hld |- *.
    rewrite !(trimStart_digit _ _ Hc).
    destruct (JS.code c =? 45)%Z eqn:H45.
    { exfalso. unfold JS.digit in Hc. destruct (_ && _)%bool eqn:H; [| done].
      apply andb_prop in H as [H1 H2]. lia. }
    destruct (JS.code c =? 43)%Z eqn:H43.
    { exfalso. unfold JS.digit in Hc. destruct (_ && _)%bool eqn:H; [| done].
      apply andb_prop in H as [H1 H2]. lia. }
    by rewrite Hld.
  - change (pretty (Zneg p)) with (String "-" (pretty_N_go (Npos p) "")).
    destruct (Hpos p) as (c & rest & -> & Hc & Hld).
    unfold JS.parseInt10.
    change (String "-" (String c rest) +:+ junk)
      with (String "-" (String c (rest +:+ junk))).
    change (String c rest +:+ junk) with (String c (rest +:+ junk)) in Hld.
    assert (forall r, JS.trimStart (String "-" (String c r)) = String "-" (String c r))
      as Htrim.
    { intros [|c3 r]; reflexivity. }
    rewrite !Htrim. change (JS.code "-" =? 45)%Z with true. cbv iota beta.
    by rewrite Hld.
Qed.

(** X17.  Whatever follows the numeral of [-n] is ignored: a decimal
    integer followed by text that does not start with a digit gives the
    same count as the integer alone. *)
Theorem trailing_text_ignored (args : Args.t) (z : Z) (junk : string) :
  Args.n args = Some (pretty z +:+ junk) ->
  no_digit_ahead junk ->
  numPhrases args = JS.Num z.
Proof.
  intros Hn Hjunk. unfold numPhrases. rewrite Hn.
  pose proof (pretty_Z_not_empty z) as Hne.
  destruct (pretty z) as [|c s] eqn:Hp; [done |].
  change (String c s +:+ junk) with (String c (s +:+ junk)). cbn [JS.truthy].
  change (String c (s +:+ junk)) with (String c s +:+ junk). rewrite <- Hp.
  rewrite (parseInt10_pretty_then z junk Hjunk). apply parseInt10_pretty.
Qed.

Lemma trailing_text_ignored_witness :
  numPhrases (Args.Build (Some "run") (Some (pretty 3%Z +:+ " phrases")) false)
  = JS.Num 3.
Proof.
  apply (trailing_text_ignored
           (Args.Build (Some "run") (Some (pretty 3%Z +:+ " phrases")) false)
           3%Z " phrases" eq_refl).
  reflexivity.
Defined.

(** ** The flag only matters at the end *)

(** X18.  The flashcards flag changes nothing up to and including the
    summary: the trace of a run without the flag is a prefix of the trace
    of the same run with the flag, the two runs make the same collaborator
    requests, and what the flag adds is at most the file write and one
    line after it. *)
Theorem flag_only_adds_at_the_end {S : Type} (collab : Collaborators S)
    (env : Env.t) (wv nv : option string) (schedule : list nat) (w : World S) :
  let off := script collab env (Args.Build wv nv false) schedule w in
  let on := script collab env (Args.Build wv nv true) schedule w in
  exists t,
    trace on.2 = trace off.2 ++ t
    /\ requests (trace on.2) = requests (trace off.2)
    /\ (t = []
        \/ exists translations last,
             t = [WriteFileSync "flashcards.txt" (flashcardsContent translations);
                  last]
             /\ is_output last = true).
Proof.
  cbv zeta. rewrite !script_unfold.
  change (config_error env (Args.Build wv nv true))
    with (config_error env (Args.Build wv nv false)).
  destruct (config_error env (Args.Build wv nv false)) as [msg|].
  { exists []. rewrite app_nil_r. split; [done |]. split; [done | by left]. }
  change (words (Args.Build wv nv true)) with (words (Args.Build wv nv false)).
  change (numPhrases (Args.Build wv nv true))
    with (numPhrases (Args.Build wv nv false)).
  change (flashcards (Args.Build wv nv true)) with true.
  change (flashcards (Args.Build wv nv false)) with false.
  unfold run_main, main, bind.
  destruct (for_words collab _ _ [] w) as [[selected|e|] w1].
  - destruct (translate_all collab selected schedule w1) as [[translations|e|] w2].
    + rewrite !report_result.
      destruct (fs_writeFileSync collab _ _ (backend w2)) as [[u|e] s']; simpl.
      * exists [export_call translations; ConsoleLog generated_line].
        split; [by rewrite <- app_assoc |]. split.
        -- rewrite !requests_app. simpl. done.
        -- right. by exists translations, (ConsoleLog generated_line).
      * exists [export_call translations; ConsoleError (error_line e)].
        split; [by rewrite <- !app_assoc |]. split.
        -- rewrite !requests_app. simpl. by rewrite !app_nil_r.
        -- right. by exists translations, (ConsoleError (error_line e)).
    + exists []. rewrite app_nil_r. split; [done |]. split; [done | by left].
    + exists []. rewrite app_nil_r. split; [done |]. split; [done | by left].
  - exists []. rewrite app_nil_r. split; [done |]. split; [done | by left].
  - exists []. rewrite app_nil_r. split; [done |]. split; [done | by left].
Qed.

(** ** Announcements *)

Lemma sequential_phase_meanings {S : Type} (collab : Collaborators S)
    (numPhrases : JS.number) (words : list string) (w : World S)
    (rs : list WordRun.t) (w1 : World S) :
  sequential_phase collab numPhrases words w rs w1 ->
  Forall (fun r =>
            exists wa wb,
              getWordMeaning collab (WordRun.word r) wa
              = (Normal (WordRun.meaning r), wb)) rs.
Proof.
  induction 1 as [w | word rest w meaning w1 phrases w2 chosen w3 rs w4 H1 H2 H3 _ IH];
    constructor; [| exact IH].
  by exists w, w1.
Qed.

(** X19.  A loop that completes prints one announcement per word, in the
    order of the words, each giving the meaning that [getWordMeaning]
    returned for that word in this run (the per-word records are those of
    [sequential_phase]), and it prints nothing else, nor anything on
    standard error. *)
Theorem announcements_in_order {S : Type} (collab : Collaborators S)
    (numPhrases : JS.number) (words : list string) (w : World S)
    (selected : list Selected.t) (w1 : World S) :
  for_words collab numPhrases words [] w = (Normal selected, w1) ->
  exists rs,
    sequential_phase collab numPhrases words w rs w1
    /\ Forall (fun r =>
                 exists wa wb,
                   getWordMeaning collab (WordRun.word r) wa
                   = (Normal (WordRun.meaning r), wb)) rs
    /\ map WordRun.word rs = words
    /\ stdout (trace w1)
       = stdout (trace w)
         ++ map (fun r => meaning_line (WordRun.word r) (WordRun.meaning r)) rs
    /\ stderr (trace w1) = stderr (trace w).
Proof.
  intros Hloop.
  destruct (for_words_complete collab _ _ _ _ _ _ Hloop) as (rs & Hseq & _).
  exists rs. split; [exact Hseq |].
  split; [by eapply sequential_phase_meanings |].
  split; [by eapply sequential_phase_words |].
  pose proof (sequential_phase_trace collab _ _ _ _ _ Hseq) as ->.
  clear Hseq Hloop. rewrite stdout_app, stderr_app. split.
  - f_equal. induction rs as [|r rs IH]; [done |]. simpl. by rewrite <- IH.
  - assert (stderr (concat (map (word_events numPhrases) rs)) = []) as ->.
    { induction rs as [|r rs IH]; [done |]. simpl. exact IH. }
    by rewrite app_nil_r.
Qed.

Lemma announcements_in_order_witness :
  exists rs,
    sequential_phase Sample.happy (JS.Num 2) ["run"; "jump"] Sample.start rs
      (for_words Sample.happy (JS.Num 2) ["run"; "jump"] [] Sample.start).2
    /\ stdout (trace (for_words Sample.happy (JS.Num 2) ["run"; "jump"] []
                        Sample.start).2)
       = stdout (trace Sample.start)
         ++ map (fun r => meaning_line (WordRun.word r) (WordRun.meaning r)) rs.
Proof.
  destruct (announcements_in_order Sample.happy (JS.Num 2) ["run"; "jump"]
              Sample.start
              [Selected.Build "I run." "to move fast" "run";
               Selected.Build "I run." "to move fast" "jump"]
              (for_words Sample.happy (JS.Num 2) ["run"; "jump"] []
                 Sample.start).2 eq_refl) as (rs & Hseq & _ & _ & Hout & _).
  exists rs. split; [exact Hseq | exact Hout].
Defined.

(** * The arguments as [minimist] delivers them *)

(** With [string: ["w", "n"]], [minimist] leaves a flag that was not passed
    [undefined], gives a flag passed once its string, and gathers the
    values of a flag passed more than once in an array. *)
Inductive flag_value : Type :=
  | Undefined
  | Once (s : string)
  | Repeated (items : list string).

Module Argv.
Record t : Type := Build {
  w : flag_value;
  n : flag_value;
  flashcards : bool
}.
End Argv.

(** Truthiness: an array is truthy, also when it is empty. *)
Definition flag_truthy (v : flag_value) : bool :=
  match v with
  | Undefined => false
  | Once s => JS.truthy (Some s)
  | Repeated _ => true
  end.

(** [ToString], which [Number.parseInt] applies to its argument: an array
    becomes its items joined by commas. *)
Definition flag_text (v : flag_value) : string :=
  match v with
  | Undefined => "undefined"
  | Once s => s
  | Repeated items => JS.join "," items
  end.

Definition split_is_not_a_function : error :=
  "TypeError: args.w.split is not a function".

(** [args.w ? args.w.split(",") : []]: an array has no [split] method, so
    calling it throws. *)
Definition words_of (v : flag_value) : outcome (list string) :=
  if flag_truthy v then
    match v with
    | Once s => Fulfilled (JS.split "," s)
    | _ => Rejected split_is_not_a_function
    end
  else Fulfilled [].

(** [args.n ? Number.parseInt(args.n, 10) : 5]. *)
Definition numPhrases_of (v : flag_value) : JS.number :=
  if flag_truthy v then JS.parseInt10 (flag_text v) else JS.Num 5.

(** An exception thrown by the module body outside [main]: Node reports it
    on standard error (recorded here as the error's text) and ends the
    process with status 1. *)
Definition uncaught {S : Type} (e : error) (w : World S) : status * World S :=
  (Exited 1%Z, MkWorld (backend w) (trace w ++ [ConsoleError e])).

(** The module body on the values [minimist] returned. *)
Definition module_body {S : Type} (collab : Collaborators S) (env : Env.t)
    (argv : Argv.t) (schedule : list nat) (w : World S) : status * World S :=
  if credential_missing env then die credential_message w
  else
    match words_of (Argv.w argv) with
    | Rejected e => uncaught e w
    | Fulfilled ws =>
        let count := numPhrases_of (Argv.n argv) in
        let flag := Argv.flashcards argv || false in
        if length ws =? 0 then die no_words_message w
        else if JS.isNaN count || JS.le0 count then die bad_count_message w
        else run_main collab ws count flag schedule w
    end.

Definition once (v : option string) : flag_value :=
  match v with
  | None => Undefined
  | Some s => Once s
  end.

Definition argv_of (args : Args.t) : Argv.t :=
  Argv.Build (once (Args.w args)) (once (Args.n args)) (Args.flashcards args).

(** On flags passed at most once the module body is [script]. *)
Lemma module_body_script {S : Type} (collab : Collaborators S) (env : Env.t)
    (args : Args.t) (schedule : list nat) (w : World S) :
  module_body collab env (argv_of args) schedule w
  = script collab env args schedule w.
Proof.
  rewrite script_unfold. unfold module_body, config_error, argv_of.
  destruct (credential_missing env); [done |]. cbn [Argv.w Argv.n Argv.flashcards].
  assert (numPhrases_of (once (Args.n args)) = numPhrases args) as ->.
  { unfold numPhrases_of, numPhrases. by destruct (Args.n args) as [[|c s]|]. }
  assert (words_of (once (Args.w args)) = Fulfilled (words args)) as ->.
  { unfold words_of, words. by destruct (Args.w args) as [[|c s]|]. }
  fold (flashcards args).
  destruct (length (words args) =? 0); [done |].
  by destruct (JS.isNaN (numPhrases args) || JS.le0 (numPhrases args)).
Qed.

(** ** Which configurations are rejected *)

Definition raw_config_error (env : Env.t) (argv : Argv.t) : option string :=
  if credential_missing env then Some credential_message
  else if negb (flag_truthy (Argv.w argv)) then Some no_words_message
  else if JS.isNaN (numPhrases_of (Argv.n argv))
          || JS.le0 (numPhrases_of (Argv.n argv))
       then Some bad_count_message
  else None.

(** The count check fires: [-n] has a non-empty value that
    [Number.parseInt] reads as [NaN] or as a number that is at most 0. *)
Definition count_rejected (v : flag_value) : Prop :=
  flag_truthy v = true
  /\ (JS.parseInt10 (flag_text v) = JS.NaN
      \/ exists z, JS.parseInt10 (flag_text v) = JS.Num z /\ (z <= 0)%Z).

Definition raw_bad_configuration (env : Env.t) (argv : Argv.t) : Prop :=
  credential_absent env
  \/ Argv.w argv = Undefined
  \/ Argv.w argv = Once ""
  \/ count_rejected (Argv.n argv).

(** The script ends on one of its three configuration messages, with
    status 1, the world as it was and nothing but the message added to the
    trace. *)
Definition configuration_failure {S : Type} (collab : Collaborators S)
    (env : Env.t) (argv : Argv.t) (schedule : list nat) (w : World S) : Prop :=
  exists msg,
    msg ∈ config_messages
    /\ module_body collab env argv schedule w
       = (Exited 1%Z, MkWorld (backend w) (trace w ++ [ConsoleError msg])).

Lemma count_check_rejected (v : flag_value) :
  JS.isNaN (numPhrases_of v) || JS.le0 (numPhrases_of v) = true
  <-> count_rejected v.
Proof.
  unfold numPhrases_of, count_rejected.
  destruct (flag_truthy v).
  - destruct (JS.parseInt10 (flag_text v)) as [|z]; simpl.
    + split; [intros _; split; [done | by left] | done].
    + rewrite Z.leb_le. split.
      * intros Hz. split; [done |]. right. by exists z.
      * intros [_ [? | (z' & [= <-] & Hz)]]; done.
  - simpl. split; [done | by intros [? _]].
Qed.

Lemma module_body_unfold {S : Type} (collab : Collaborators S) (env : Env.t)
    (argv : Argv.t) (schedule : list nat) (w : World S) :
  (forall items, Argv.w argv <> Repeated items) ->
  module_body collab env argv schedule w
  = match raw_config_error env argv with
    | Some msg => die msg w
    | None =>
        run_main collab (JS.split "," (flag_text (Argv.w argv)))
          (numPhrases_of (Argv.n argv)) (Argv.flashcards argv) schedule w
    end.
Proof.
  intros Hw. unfold module_body, raw_config_error.
  destruct (credential_missing env); [done |].
  unfold words_of. destruct (Argv.w argv) as [|[|c s]|items];
    cbn [flag_truthy JS.truthy negb flag_text];
    [done | done | | by destruct (Hw items)].
  pose proof (split_not_nil "," (String c s)) as Hne.
  destruct (JS.split "," (String c s)) as [|word rest]; [done |].
  cbn [length Nat.eqb]. rewrite orb_false_r.
  by destruct (JS.isNaN _ || JS.le0 _).
Qed.

Lemma raw_config_error_bad (env : Env.t) (argv : Argv.t) :
  (forall items, Argv.w argv <> Repeated items) ->
  raw_config_error env argv <> None <-> raw_bad_configuration env argv.
Proof.
  intros Hw. unfold raw_config_error, raw_bad_configuration.
  pose proof (credential_missing_absent env) as Hcred.
  destruct (credential_missing env).
  { split; [intros _; left; by apply Hcred | done]. }
  assert (~ credential_absent env) as Hpresent.
  { intros H. apply Hcred in H. discriminate. }
  destruct (Argv.w argv) as [|[|c s]|items]; simpl.
  - split; [intros _; right; by left | done].
  - split; [intros _; right; right; by left | done].
  - pose proof (count_check_rejected (Argv.n argv)) as Hcount.
    destruct (JS.isNaN _ || JS.le0 _).
    + split; [| done]. intros _. do 3 right. by apply Hcount.
    + split; [done |]. intros [? | [? | [? | Hc]]]; try done.
      apply Hcount in Hc. discriminate.
  - by destruct (Hw items).
Qed.

Lemma raw_config_error_message (env : Env.t) (argv : Argv.t) (msg : string) :
  raw_config_error env argv = Some msg -> msg ∈ config_messages.
Proof.
  unfold raw_config_error, config_messages.
  destruct (credential_missing env);
    [intros [= <-]; apply list_elem_of_In; simpl; auto |].
  destruct (negb (flag_truthy (Argv.w argv)));
    [intros [= <-]; apply list_elem_of_In; simpl; auto |].
  destruct (JS.isNaN _ || JS.le0 _);
    [intros [= <-]; apply list_elem_of_In; simpl; auto | discriminate].
Qed.

(** *** The claim as the spec words it *)

(** A value is numeric, in the plain sense of the word, when it is a
    decimal numeral: an optional sign, then one or more digits, and
    nothing else. *)
Definition plain_numeral (s : string) : option Z :=
  let '(sign, body) :=
    match s with
    | String c rest =>
        if (JS.code c =? 45)%Z then ((-1)%Z, rest)
        else if (JS.code c =? 43)%Z then (1%Z, rest)
        else (1%Z, s)
    | EmptyString => (1%Z, s)
    end in
  match body with
  | EmptyString => None
  | String _ _ =>
      if digits_only body then Some (sign * numeral_value body)%Z else None
  end.

(** The conditions of the claim read on the values given on the command
    line: no word, a count that is not numeric, a count that is at most
    0, no credential. *)
Definition claimed_rejection (env : Env.t) (argv : Argv.t) : Prop :=
  Argv.w argv = Undefined
  \/ Argv.w argv = Once ""
  \/ (exists s, Argv.n argv = Once s /\ plain_numeral s = None)
  \/ (exists s z, Argv.n argv = Once s /\ plain_numeral s = Some z /\ (z <= 0)%Z)
  \/ credential_absent env.

Definition config_as_claimed {S : Type} (collab : Collaborators S)
    (env : Env.t) (argv : Argv.t) (schedule : list nat) (w : World S) : Prop :=
  configuration_failure collab env argv schedule w
  <-> claimed_rejection env argv.

(** C3 as stated fails: [-n 3abc] is not numeric, yet the checks pass, the
    count is 3 and the pipeline runs to its end. *)
Lemma config_claim_counterexample :
  plain_numeral "3abc" = None
  /\ numPhrases_of (Once "3abc") = JS.Num 3
  /\ (module_body Sample.happy Sample.env
        (Argv.Build (Once "run") (Once "3abc") false) [0] Sample.start).1
     = Exited 0%Z
  /\ generate_calls PhrasesSchema
       (trace (module_body Sample.happy Sample.env
                 (Argv.Build (Once "run") (Once "3abc") false) [0]
                 Sample.start).2)
     = [phrases_prompt "run" (JS.Num 3)]
  /\ ~ config_as_claimed Sample.happy Sample.env
         (Argv.Build (Once "run") (Once "3abc") false) [0] Sample.start.
Proof.
  split; [reflexivity |]. split; [reflexivity |]. split; [reflexivity |].
  split; [reflexivity |].
  intros [_ H].
  destruct H as (msg & _ & Hrun).
  - right. right. left. exists "3abc". split; reflexivity.
  - apply (f_equal fst) in Hrun. vm_compute in Hrun. discriminate Hrun.
Qed.

(** C3 (as amended).  When [-w] is not repeated, the script ends on one of
    its three configuration messages (standard error, exit status 1, no
    collaborator call, the world untouched) exactly when the credential
    variable is unset or empty, or [-w] is absent or empty, or [-n] has a
    non-empty value that [Number.parseInt(., 10)] reads as [NaN] or as a
    number that is at most 0; otherwise the checks pass and the run is
    [main().catch(...)] on the words of [-w] and on that count.  As to how
    [-n] is read: an absent or empty [-n] counts as 5 and is never
    rejected, and a decimal integer followed by any text that does not
    start with a digit is rejected exactly when the integer is at most
    0. *)
Theorem raw_config_rejected_exactly {S : Type} (collab : Collaborators S)
    (env : Env.t) (argv : Argv.t) (schedule : list nat) (w : World S) :
  (forall items, Argv.w argv <> Repeated items) ->
  (configuration_failure collab env argv schedule w
   <-> raw_bad_configuration env argv)
  /\ (~ raw_bad_configuration env argv ->
      exists s,
        Argv.w argv = Once s /\ s <> ""
        /\ module_body collab env argv schedule w
           = run_main collab (JS.split "," s) (numPhrases_of (Argv.n argv))
               (Argv.flashcards argv) schedule w)
  /\ (Argv.n argv = Undefined \/ Argv.n argv = Once "" ->
      numPhrases_of (Argv.n argv) = JS.Num 5
      /\ ~ count_rejected (Argv.n argv))
  /\ (forall z junk,
        Argv.n argv = Once (pretty z +:+ junk) -> no_digit_ahead junk ->
        numPhrases_of (Argv.n argv) = JS.Num z
        /\ (count_rejected (Argv.n argv) <-> (z <= 0)%Z)).
Proof.
  intros Hw.
  pose proof (raw_config_error_bad env argv Hw) as Hbad.
  pose proof (module_body_unfold collab env argv schedule w Hw) as Hrun.
  split; [| split; [| split]].
  - destruct (raw_config_error env argv) as [msg|] eqn:Hcfg.
    + split; [intros _; by apply Hbad |]. intros _. exists msg.
      split; [by eapply raw_config_error_message | exact Hrun].
    + split; [| intros H; by apply Hbad in H].
      intros (msg & _ & Hdie). exfalso. rewrite Hrun in Hdie.
      assert (flag_truthy (Argv.w argv) = true) as Hwt.
      { unfold raw_config_error in Hcfg.
        destruct (credential_missing env); [discriminate |].
        by destruct (flag_truthy (Argv.w argv)). }
      pose proof (split_not_nil "," (flag_text (Argv.w argv))) as Hne.
      destruct (JS.split "," (flag_text (Argv.w argv))) as [|word rest]; [done |].
      destruct (run_main_first_event collab word rest (numPhrases_of (Argv.n argv))
                  (Argv.flashcards argv) schedule w) as [t Ht].
      rewrite Hdie in Ht. simpl in Ht. apply app_inv_head in Ht. discriminate.
  - intros Hgood.
    destruct (raw_config_error env argv) as [msg|] eqn:Hcfg.
    { exfalso. apply Hgood, Hbad. done. }
    destruct (Argv.w argv) as [|[|c s]|items] eqn:Hwv.
    + exfalso. apply Hgood. right. by left.
    + exfalso. apply Hgood. right. right. by left.
    + exists (String c s). split; [done |]. split; [done |]. exact Hrun.
    + by destruct (Hw items).
  - intros Hn. assert (numPhrases_of (Argv.n argv) = JS.Num 5) as H5.
    { by destruct Hn as [-> | ->]. }
    split; [exact H5 |]. intros Hc. apply count_check_rejected in Hc.
    by rewrite H5 in Hc.
  - intros z junk Hn Hjunk.
    assert (numPhrases_of (Argv.n argv) = JS.Num z) as Hz.
    { rewrite Hn. unfold numPhrases_of. cbn [flag_truthy flag_text].
      pose proof (pretty_Z_not_empty z) as Hne.
      destruct (pretty z) as [|c s] eqn:Hp; [done |].
      change (String c s +:+ junk) with (String c (s +:+ junk)). cbn [JS.truthy].
      change (String c (s +:+ junk)) with (String c s +:+ junk). rewrite <- Hp.
      rewrite (parseInt10_pretty_then z junk Hjunk). apply parseInt10_pretty. }
    split; [exact Hz |].
    rewrite <- count_check_rejected, Hz. simpl. by rewrite Z.leb_le.
Qed.

Lemma raw_config_rejected_exactly_witness :
  configuration_failure Sample.happy Sample.env
    (Argv.Build (Once "run") (Once "0.5") true) [] Sample.start.
Proof.
  apply (proj1 (raw_config_rejected_exactly Sample.happy Sample.env
                  (Argv.Build (Once "run") (Once "0.5") true) [] Sample.start
                  ltac:(discriminate))).
  right. right. right. split; [reflexivity |].
  right. exists 0%Z. split; [reflexivity | lia].
Defined.

(** ** Repeated flags *)

(** X20.  With a credential set, a [-w] passed more than once makes the
    script throw before its checks: [minimist] delivers an array, which
    has no [split]; the run ends with status 1 on a [TypeError] that is
    none of the three configuration messages, without any collaborator
    call, whatever the other arguments are. *)
Theorem repeated_words_flag_throws {S : Type} (collab : Collaborators S)
    (env : Env.t) (argv : Argv.t) (schedule : list nat) (w : World S)
    (items : list string) :
  ~ credential_absent env ->
  Argv.w argv = Repeated items ->
  module_body collab env argv schedule w
  = (Exited 1%Z,
     MkWorld (backend w)
       (trace w ++ [ConsoleError "TypeError: args.w.split is not a function"]))
  /\ requests (trace (module_body collab env argv schedule w).2)
     = requests (trace w)
  /\ ~ configuration_failure collab env argv schedule w.
Proof.
  intros Hcred Hw.
  assert (module_body collab env argv schedule w
          = (Exited 1%Z,
             MkWorld (backend w)
               (trace w ++ [ConsoleError split_is_not_a_function]))) as Hrun.
  { unfold module_body. destruct (credential_missing env) eqn:Hm.
    - exfalso. by apply Hcred, credential_missing_absent.
    - by rewrite Hw. }
  split; [exact Hrun |]. split.
  - rewrite Hrun. simpl. rewrite requests_app. simpl. by rewrite app_nil_r.
  - intros (msg & Hmsg & Hdie). rewrite Hrun in Hdie.
    injection Hdie as Hdie. apply app_inv_head in Hdie. injection Hdie as <-.
    apply list_elem_of_In in Hmsg. simpl in Hmsg.
    destruct Hmsg as [H | [H | [H | []]]]; vm_compute in H; discriminate H.
Qed.

Lemma repeated_words_flag_throws_witness :
  module_body Sample.happy Sample.env
    (Argv.Build (Repeated ["run"; "jump"]) (Once "2") false) [] Sample.start
  = (Exited 1%Z,
     MkWorld tt [ConsoleError "TypeError: args.w.split is not a function"]).
Proof.
  apply (proj1 (repeated_words_flag_throws Sample.happy Sample.env
                  (Argv.Build (Repeated ["run"; "jump"]) (Once "2") false) []
                  Sample.start ["run"; "jump"]
                  ltac:(intros [H | H]; discriminate H) eq_refl)).
Defined.

(** X21.  A [-n] passed more than once does not throw: the array is read
    through its text, the values joined by commas, so the count is the
    integer of the first value when that value is a decimal numeral. *)
Theorem repeated_count_reads_first (z : Z) (more : list string) :
  numPhrases_of (Repeated (pretty z :: more)) = JS.Num z.
Proof.
  unfold numPhrases_of. cbn [flag_truthy flag_text].
  destruct more as [|x more].
  - apply parseInt10_pretty.
  - change (JS.join "," (pretty z :: x :: more))
      with (pretty z +:+ String "," (JS.join "," (x :: more))).
    rewrite parseInt10_pretty_then; [apply parseInt10_pretty | reflexivity].
Qed.
